(** * ramp-to-css-pwa: the ramp engine (src/lib/ramp.ts), the token
      builder (src/lib/tokens.ts) and what the page computes from them
      (src/app/page.tsx)

    The TypeScript modules are embedded as Rocq functions.

    - JavaScript numbers are reached through the interface [JsNumber], so
      that every function is written once, the way the source writes it.
      The instance [Binary64] interprets the operations over the doubles
      the runtime computes with.
    - JavaScript strings are sequences of 8-bit code units ([string]).
    - A [Record<string, Ramp>] is a plain object: a finite map of the
      entries of its own, read through [rampOf], which also finds what
      every plain object inherits from Object.prototype.
    - The colour library culori is not part of the repository.  Its parse,
      converters and formatHex are the interface [Culori]; its clampGamut
      is written out as far as the source depends on it: it expects the
      name of a mode and returns a function.
    - [String.prototype.localeCompare] and the text of the messages of the
      TypeErrors that the engine raises belong to the runtime: they are the
      interfaces [Locale] and [Engine].
    - A [throw] is the outcome [Throw]; the recursion of normalizeHex is
      bounded by fuel and [OutOfFuel] is a third outcome, never confused
      with a result. *)

From Stdlib Require Import ZArith QArith Lia String List Ascii.
From Stdlib Require Import Floats.PrimFloat Floats.SpecFloat Floats.FloatOps.
From Stdlib Require Uint63 OrderedTypeEx.
From Stdlib Require Import DecimalString DecimalNat.
From stdpp Require Import base option list gmap strings sorting.

Local Open Scope string_scope.

(** ** Outcomes of code that can throw *)

Inductive outcome (A : Type) : Type :=
| Return (a : A)
| Throw (msg : string)
| OutOfFuel.
Arguments Return {A} a.
Arguments Throw {A} msg.
Arguments OutOfFuel {A}.

Definition obind {A B} (m : outcome A) (k : A -> outcome B) : outcome B :=
  match m with
  | Return a => k a
  | Throw msg => Throw msg
  | OutOfFuel => OutOfFuel
  end.

Notation "'do' x <- m ; k" := (obind m (fun x => k))
  (at level 10, x name, m at level 100, k at level 200,
   format "'[v' 'do'  x  <-  m ; '/' k ']'").

(** [if (!v) throw new Error(msg)] on a value that may be undefined. *)
Definition orThrow {A} (v : option A) (msg : string) : outcome A :=
  match v with
  | Some a => Return a
  | None => Throw msg
  end.

(** ** JavaScript numbers *)

Class JsNumber (num : Type) : Type := {
  lit : Q -> num;                 (* a numeric literal of the source *)
  nadd : num -> num -> num;       (* a + b *)
  nsub : num -> num -> num;       (* a - b *)
  nmul : num -> num -> num;       (* a * b *)
  ndiv : num -> num -> num;       (* a / b *)
  nrem : num -> num -> num;       (* a % b, sign of the dividend *)
  nltb : num -> num -> bool;      (* a < b *)
  nleb : num -> num -> bool       (* a <= b *)
}.

Declare Scope js_scope.
Delimit Scope js_scope with js.
Infix "+" := nadd : js_scope.
Infix "-" := nsub : js_scope.
Infix "*" := nmul : js_scope.
Infix "/" := ndiv : js_scope.
Infix "%%" := nrem (at level 40, left associativity) : js_scope.
Infix "<?" := nltb : js_scope.
Infix "<=?" := nleb : js_scope.
Notation "a >? b" := (nltb b a) (at level 70) : js_scope.

(** Binary64, the numbers JavaScript computes with.  The primitive
    operations round to nearest, ties to even. *)
Definition floatOfZ (z : Z) : float :=
  match z with
  | Z0 => PrimFloat.zero
  | Zpos _ => PrimFloat.of_uint63 (Uint63.of_Z z)
  | Zneg p => PrimFloat.opp (PrimFloat.of_uint63 (Uint63.of_Z (Zpos p)))
  end.

(** A literal n/d with n and d below 2^53 (all literals of the source are):
    the correctly rounded quotient is the double nearest to the literal. *)
Definition floatLit (q : Q) : float :=
  PrimFloat.div (floatOfZ (Qnum q)) (floatOfZ (Zpos (Qden q))).

(** [a % b] on doubles: the remainder is exact and takes the sign of a. *)
Definition floatRem (a b : float) : float :=
  match Prim2SF a, Prim2SF b with
  | S754_nan, _ | _, S754_nan | S754_infinity _, _ | _, S754_zero _ =>
      PrimFloat.nan
  | S754_zero _, _ | _, S754_infinity _ => a
  | S754_finite sa ma ea, S754_finite _ mb eb =>
      let e := Z.min ea eb in
      let x := (Zpos ma * 2 ^ (ea - e))%Z in
      let y := (Zpos mb * 2 ^ (eb - e))%Z in
      match (x mod y)%Z with
      | Zpos r => SF2Prim (S754_finite sa r e)
      | _ => SF2Prim (S754_zero sa)
      end
  end.

#[export] Instance Binary64 : JsNumber float := {|
  lit := floatLit;
  nadd := PrimFloat.add;
  nsub := PrimFloat.sub;
  nmul := PrimFloat.mul;
  ndiv := PrimFloat.div;
  nrem := floatRem;
  nltb := PrimFloat.ltb;
  nleb := PrimFloat.leb
|}.

(** ** Errors of the engine *)

(** The engine words the messages of the TypeErrors that it raises itself;
    the program only ever passes them on. *)
Class Engine : Type := {
  cannotDestructure : string;     (* const { gamut } = undefined *)
  cannotRead : string             (* undefined.h *)
}.

(** ** ramp.ts *)

Module ramp.

Inductive RampStep : Type :=
| S100 | S200 | S300 | S400 | S500 | S600 | S700 | S800 | S900.

#[export] Instance RampStep_eq_dec : EqDecision RampStep.
Proof. solve_decision. Defined.

(** The number that is the key. *)
Definition stepNumber (s : RampStep) : N :=
  match s with
  | S100 => 100 | S200 => 200 | S300 => 300
  | S400 => 400 | S500 => 500 | S600 => 600
  | S700 => 700 | S800 => 800 | S900 => 900
  end.

(** [Partial<Ramp>]: an object whose only possible keys are the nine steps. *)
Definition PartialRamp : Type := RampStep -> option string.

Definition emptyRamp : PartialRamp := fun _ => None.

(** [out[s] = v] *)
Definition setStep (out : PartialRamp) (s : RampStep) (v : string) : PartialRamp :=
  fun s' => if N.eqb (stepNumber s') (stepNumber s) then Some v else out s'.

Inductive StopSet : Type := figma | even.

(** A colour object in mode oklch; a field that is absent is [None]
    (culori leaves h out of achromatic colours). *)
Record Oklch (num : Type) : Type := mkOklch {
  l : option num;
  c : option num;
  h : option num
}.
Arguments mkOklch {num} l c h.
Arguments l {num} o.
Arguments c {num} o.
Arguments h {num} o.

(** What the source imports from culori, clampGamut apart.  [Color] is a
    colour object of any mode; parse, the converters and formatHex answer
    undefined ([None]) for what they cannot handle.  [clampGamutOf name]
    is the function that clampGamut returns for the mode registered under
    [name], [None] when there is no such mode. *)
Class Culori (num : Type) : Type := {
  Color : Type;
  parse : string -> option Color;
  toOklch : option Color -> option (Oklch num);   (* converter("oklch") *)
  toRgb : Color -> option Color;                  (* converter("rgb") *)
  clampGamutOf : string -> option (Color -> option Color);
  formatHex : Color -> option string
}.

(** What is passed to [clampGamut(mode)]: the name of a mode, as culori
    expects, or a colour object, as toHexSafe passes. *)
Inductive ModeArgument (num : Type) : Type :=
| ModeName (name : string)
| ColorObject (color : Oklch num).
Arguments ModeName {num} name.
Arguments ColorObject {num} color.

(** *** Strings: trim, toLowerCase and the two regular expressions *)

Definition code (a : ascii) : N := N_of_ascii a.

Definition between (lo hi : N) (a : ascii) : bool :=
  (N.leb lo (code a) && N.leb (code a) hi)%bool.

(** White space and line terminators among the 8-bit code units. *)
Definition isWhiteSpace (a : ascii) : bool :=
  (between 9 13 a || N.eqb (code a) 32 || N.eqb (code a) 160)%bool.

Fixpoint trimStart (s : string) : string :=
  match s with
  | String a r => if isWhiteSpace a then trimStart r else s
  | EmptyString => EmptyString
  end.

Fixpoint trimEnd (s : string) : string :=
  match s with
  | EmptyString => EmptyString
  | String a r =>
      match trimEnd r with
      | EmptyString => if isWhiteSpace a then EmptyString else String a EmptyString
      | r' => String a r'
      end
  end.

Definition trim (s : string) : string := trimEnd (trimStart s).

(** Upper-case letters among the 8-bit code units: A-Z, and the accented
    capitals 192-222 without the multiplication sign 215. *)
Definition isUpper (a : ascii) : bool :=
  (between 65 90 a
   || (between 192 222 a && negb (N.eqb (code a) 215)))%bool.

Definition lowerChar (a : ascii) : ascii :=
  if isUpper a then ascii_of_N (code a + 32) else a.

Fixpoint toLowerCase (s : string) : string :=
  match s with
  | EmptyString => EmptyString
  | String a r => String (lowerChar a) (toLowerCase r)
  end.

(** [0-9a-f] *)
Definition isLowerHexDigit (a : ascii) : bool :=
  (between 48 57 a || between 97 102 a)%bool.

(** [0-9a-fA-F] *)
Definition isHexDigit (a : ascii) : bool :=
  (isLowerHexDigit a || between 65 70 a)%bool.

Fixpoint allChars (p : ascii -> bool) (s : string) : bool :=
  match s with
  | EmptyString => true
  | String a r => (p a && allChars p r)%bool
  end.

(** [/^#D{n}$/.test(s)] for a character class D.  Without the m flag, [$]
    matches at the very end of the input only. *)
Definition testHashDigits (p : ascii -> bool) (n : nat) (s : string) : bool :=
  match s with
  | String "#" r => (Nat.eqb (String.length r) n && allChars p r)%bool
  | _ => false
  end.

(** [h[i]] inside a string concatenation. *)
Definition charAt (s : string) (i : nat) : string :=
  match String.get i s with
  | Some a => String a EmptyString
  | None => "undefined"
  end.

Section RampEngine.
Context {num : Type} {J : JsNumber num} {K : Culori num} {E : Engine}.

Local Open Scope js_scope.

Definition wrapHue (h : num) : num :=
  let x := h %% lit 360 in
  if x <? lit 0 then x + lit 360 else x.

Definition shortestHueDelta (a b : num) : num :=
  let d := (b - a) %% lit 360 in
  let d := if d >? lit 180 then d - lit 360 else d in
  let d := if d <? lit (-180) then d + lit 360 else d in
  d.

(** [x ?? 0] *)
Definition orZero (x : option num) : num := default (lit 0) x.

Definition lerpOklch (a b : Oklch num) (t : num) : Oklch num :=
  let ah := wrapHue (orZero (h a)) in
  let bh := wrapHue (orZero (h b)) in
  let dh := shortestHueDelta ah bh in
  let h' := wrapHue (ah + dh * t) in
  let l' := orZero (l a) + (orZero (l b) - orZero (l a)) * t in
  let c' := orZero (c a) + (orZero (c b) - orZero (c a)) * t in
  mkOklch (Some l') (Some c') (Some h').

(** Reading a property of a value that the source asserts with [!]: a
    TypeError when it is undefined after all. *)
Definition nonNull (v : option (Oklch num)) : outcome (Oklch num) :=
  orThrow v cannotRead.

Definition sampleWhiteBaseBlack (baseHex : string) (t01 : num)
  : outcome (Oklch num) :=
  do base <- orThrow (toOklch (parse baseHex)) "Invalid base hex";
  let white := toOklch (parse "#ffffff") in
  let black := toOklch (parse "#000000") in
  if t01 <=? lit 0.5 then
    let u := t01 / lit 0.5 in
    do w <- nonNull white;
    Return (lerpOklch w base u)
  else
    let u := (t01 - lit 0.5) / lit 0.5 in
    do k <- nonNull black;
    Return (lerpOklch base k u).

Definition sampleRefined (light base dark : Oklch num) (t01 : num)
  : Oklch num :=
  if t01 <=? lit 0.5 then
    let u := t01 / lit 0.5 in
    lerpOklch light base u
  else
    let u := (t01 - lit 0.5) / lit 0.5 in
    lerpOklch base dark u.

Fixpoint normalizeHex (fuel : nat) (hex : string) : outcome string :=
  match fuel with
  | O => OutOfFuel
  | S fuel' =>
      let h := toLowerCase (trim hex) in
      if testHashDigits isLowerHexDigit 3 h then
        Return ("#" +:+ charAt h 1 +:+ charAt h 1 +:+ charAt h 2
                    +:+ charAt h 2 +:+ charAt h 3 +:+ charAt h 3)
      else if testHashDigits isLowerHexDigit 6 h then Return h
      else
        do p <- orThrow (parse h) "Invalid hex";
        do formatted <- orThrow (formatHex p) "Invalid hex";
        normalizeHex fuel' formatted
  end.

Definition isValidHex (hex : string) : bool :=
  let h := trim hex in
  (testHashDigits isHexDigit 6 h || testHashDigits isHexDigit 3 h)%bool.

(** culori's [clampGamut(mode = "rgb")].  It begins with
    [const { gamut } = getMode(mode)], where getMode reads the table of
    modes at the key [mode], and then returns the function that clamps a
    colour.  A colour object is the key of no mode: getMode answers
    undefined and the destructuring is a TypeError. *)
Definition clampGamut (mode : ModeArgument num)
  : outcome (Color -> option Color) :=
  match mode with
  | ModeName name => orThrow (clampGamutOf name) cannotDestructure
  | ColorObject _ => Throw cannotDestructure
  end.

(** [toRgb(f)] for a function f: a converter parses whatever is not an
    object, and parse answers undefined for whatever is not a string. *)
Definition toRgbOfFunction (f : Color -> option Color) : option Color := None.

(** The value of [clampGamut(oklchColor)] would be a function, which is
    truthy: the check [if (!clamped)] lets it pass, and it is the function
    that goes to toRgb. *)
Definition toHexSafe (fuel : nat) (oklchColor : Oklch num) : outcome string :=
  do clamped <- clampGamut (ColorObject oklchColor);
  do rgb <- orThrow (toRgbOfFunction clamped) "Failed to convert to RGB";
  do hex <- orThrow (formatHex rgb) "Failed to format hex";
  normalizeHex fuel hex.

Definition steps : list RampStep :=
  [S100; S200; S300; S400; S500; S600; S700; S800; S900].

Definition positions (stopSet : StopSet) : list num :=
  match stopSet with
  | even => map lit [0.0; 0.125; 0.25; 0.375; 0.5; 0.625; 0.75; 0.875; 1.0]%Q
  | figma => map lit [0.0; 0.13; 0.25; 0.38; 0.5; 0.63; 0.75; 0.88; 1.0]%Q
  end.

(** The loop [for (let i = 0; i < steps.length; i++)], from index i on:
    [todo] pairs steps[i] with positions[i]. *)
Fixpoint fillSteps (fuel : nat) (light base dark : Oklch num)
    (todo : list (RampStep * num)) (out : PartialRamp) : outcome PartialRamp :=
  match todo with
  | [] => Return out
  | (s, t) :: rest =>
      let c := sampleRefined light base dark t in
      do hex <- toHexSafe fuel c;
      fillSteps fuel light base dark rest (setStep out s hex)
  end.

Definition generateRamp9 (fuel : nat) (baseHex : string) (stopSet : StopSet)
  : outcome PartialRamp :=
  let baseParsed := parse baseHex in
  let base := match baseParsed with
              | Some p => toOklch (Some p)
              | None => None
              end in
  do base <- orThrow base "Invalid hex color";
  do lightEndpoint <- sampleWhiteBaseBlack baseHex (lit 0.25);
  do darkEndpoint <- sampleWhiteBaseBlack baseHex (lit 0.75);
  do out <- fillSteps fuel lightEndpoint base darkEndpoint
              (zip steps (positions stopSet)) emptyRamp;
  do base500 <- normalizeHex fuel baseHex;
  Return (setStep out S500 base500).

End RampEngine.

End ramp.

(** ** tokens.ts *)

Module tokens.
Import ramp.

(** [Ramp = Record<RampStep, string>]: a value for each of the nine steps. *)
Definition Ramp : Type := RampStep -> string.

Record PaletteColor : Type := mkPaletteColor {
  id : string;
  label : string;
  hex : string
}.

Inductive ThemeName : Type := light | dark.

Definition themeName (theme : ThemeName) : string :=
  match theme with light => "light" | dark => "dark" end.

Record ThemeMapping : Type := mkThemeMapping {
  surfacePrimary : string;
  surfaceInverse : string;
  textPrimary : string;
  textInverse : string;
  accentPrimary : string;
  accentInverse : string
}.

(** [Record<ThemeName, A>] *)
Record PerTheme (A : Type) : Type := mkPerTheme {
  ofLight : A;
  ofDark : A
}.
Arguments mkPerTheme {A} ofLight ofDark.
Arguments ofLight {A} p.
Arguments ofDark {A} p.

Definition atTheme {A} (r : PerTheme A) (theme : ThemeName) : A :=
  match theme with light => ofLight r | dark => ofDark r end.

(** The six slots of a mapping, in the order of the type. *)
Definition mappingSlots (m : ThemeMapping) : list string :=
  [surfacePrimary m; surfaceInverse m; textPrimary m; textInverse m;
   accentPrimary m; accentInverse m].

(** [Record<string, Ramp>]: the ramps that a plain object holds as
    properties of its own. *)
Abbreviation RampMap := (gmap string Ramp).

(** The members that every plain object inherits from Object.prototype:
    functions, and under __proto__ the prototype itself. *)
Definition objectPrototypeMembers : list string :=
  ["constructor"; "__defineGetter__"; "__defineSetter__"; "hasOwnProperty";
   "__lookupGetter__"; "__lookupSetter__"; "isPrototypeOf";
   "propertyIsEnumerable"; "toString"; "valueOf"; "__proto__";
   "toLocaleString"].

(** What [ramps[key]] evaluates to: a ramp of the object's own, a member
    that the object inherits, or undefined. *)
Inductive Found : Type :=
| OwnRamp (ramp : Ramp)
| Inherited
| NotFound.

Definition rampOf (ramps : RampMap) (key : string) : Found :=
  match ramps !! key with
  | Some ramp => OwnRamp ramp
  | None =>
      if bool_decide (key ∈ objectPrototypeMembers) then Inherited else NotFound
  end.

(** A value of [primitives]: a string or, whatever the type says,
    undefined. *)
Inductive PrimitiveValue : Type :=
| Text (s : string)
| Undefined.

(** [ramp[s]]: the string of a ramp; undefined on an inherited member,
    which has no property named by a step. *)
Definition stepOf (ramp : Found) (s : RampStep) : PrimitiveValue :=
  match ramp with
  | OwnRamp r => Text (r s)
  | Inherited | NotFound => Undefined
  end.

(** [`${value}`] *)
Definition printed (value : PrimitiveValue) : string :=
  match value with
  | Text s => s
  | Undefined => "undefined"
  end.

(** An object whose order of keys is observed (Object.keys,
    Object.entries, the JSON output): the entries in insertion order. *)
Definition Entries (V : Type) : Type := list (string * V).

(** [Record<string, string>] *)
Definition Obj : Type := Entries string.

(** [primitives] *)
Definition Primitives : Type := Entries PrimitiveValue.

(** [o[k] = v]: an existing key keeps its place, a new one goes last. *)
Fixpoint objSet {V} (k : string) (v : V) (o : Entries V) : Entries V :=
  match o with
  | [] => [(k, v)]
  | (k', v') :: r =>
      if String.eqb k' k then (k, v) :: r else (k', v') :: objSet k v r
  end.

Fixpoint objGet {V} (o : Entries V) (k : string) : option V :=
  match o with
  | [] => None
  | (k', v') :: r => if String.eqb k' k then Some v' else objGet r k
  end.

(** [o[k]] read into a string; undefined prints as the template literal
    prints it. *)
Definition objRead (o : Obj) (k : string) : string :=
  default "undefined" (objGet o k).

(** [primitives[k]] read into a string. *)
Definition primitiveRead (prims : Primitives) (k : string) : string :=
  printed (default Undefined (objGet prims k)).

Definition objKeys {V} (o : Entries V) : list string := map fst o.

Record Json : Type := mkJson {
  primitives : Primitives;
  themes : PerTheme Obj;
  components : PerTheme Obj
}.

Record TokenBundle : Type := mkTokenBundle {
  css : string;
  json : Json
}.

(** The runtime's collation: negative, zero or positive. *)
Class Locale : Type := {
  localeCompare : string -> string -> Z
}.

Definition steps : list RampStep :=
  [S100; S200; S300; S400; S500; S600; S700; S800; S900].

(** [`${step}`] *)
Definition stepToString (step : RampStep) : string :=
  match step with
  | S100 => "100" | S200 => "200" | S300 => "300"
  | S400 => "400" | S500 => "500" | S600 => "600"
  | S700 => "700" | S800 => "800" | S900 => "900"
  end.

Definition varNamePrimitive (id : string) (step : RampStep) : string :=
  "--c-" +:+ id +:+ "-" +:+ stepToString step.

Definition varLine (name value : string) : string :=
  "  " +:+ name +:+ ": " +:+ value +:+ ";".

(** [`var(${name})`] *)
Definition var (name : string) : string := "var(" +:+ name +:+ ")".

Definition newline : string := String "010" EmptyString.
Definition dquote : string := String "034" EmptyString.

(** [lines.join("\n")] *)
Definition join (sep : string) (lines : list string) : string :=
  String.concat sep lines.

(** [theme === "light" ? a : b] *)
Definition ifLight {A} (theme : ThemeName) (a b : A) : A :=
  match theme with light => a | dark => b end.

(** The first loop: the primitives of one palette entry, then of all.
    Whatever [ramps[c.id]] finds is an object or a function, hence truthy;
    only undefined makes the loop continue. *)
Definition addRamp (id : string) (ramp : Found) (prims : Primitives) : Primitives :=
  fold_left (fun acc s => objSet (varNamePrimitive id s) (stepOf ramp s) acc)
            steps prims.

Definition addPaletteColor (ramps : RampMap) (prims : Primitives)
    (c : PaletteColor) : Primitives :=
  match rampOf ramps (id c) with
  | NotFound => prims                   (* if (!ramp) continue *)
  | ramp => addRamp (id c) ramp prims
  end.

Definition buildPrimitives (palette : list PaletteColor) (ramps : RampMap)
  : Primitives :=
  fold_left (addPaletteColor ramps) palette [].

(** The body of the second loop, semantic part: [themes[theme]]. *)
Definition semanticTokens (theme : ThemeName) (m : ThemeMapping) : Obj :=
  let surfacePrimaryStep := ifLight theme S100 S900 in
  let surfaceSecondaryStep := ifLight theme S200 S800 in
  let textPrimaryStep := ifLight theme S900 S100 in
  let textSecondaryStep := ifLight theme S700 S200 in
  let textMutedStep := ifLight theme S600 S400 in
  let textDisabledStep := ifLight theme S400 S500 in
  let borderDefaultStep := ifLight theme S300 S700 in
  let borderStrongStep := ifLight theme S400 S600 in
  let borderSubtleStep := ifLight theme S200 S800 in
  let accentDefaultStep := S500 in
  let accentHoverStep := S600 in
  let accentActiveStep := S700 in
  let t : Obj := [] in
  let t := objSet "--surface-primary"
             (var (varNamePrimitive (surfacePrimary m) surfacePrimaryStep)) t in
  let t := objSet "--surface-secondary"
             (var (varNamePrimitive (surfacePrimary m) surfaceSecondaryStep)) t in
  let t := objSet "--surface-inverse"
             (var (varNamePrimitive (surfaceInverse m) (ifLight theme S900 S100))) t in
  let t := objSet "--text-primary"
             (var (varNamePrimitive (textPrimary m) textPrimaryStep)) t in
  let t := objSet "--text-secondary"
             (var (varNamePrimitive (textPrimary m) textSecondaryStep)) t in
  let t := objSet "--text-muted"
             (var (varNamePrimitive (textPrimary m) textMutedStep)) t in
  let t := objSet "--text-disabled"
             (var (varNamePrimitive (textPrimary m) textDisabledStep)) t in
  let t := objSet "--text-inverse"
             (var (varNamePrimitive (textInverse m) (ifLight theme S100 S900))) t in
  let t := objSet "--border-default"
             (var (varNamePrimitive (textPrimary m) borderDefaultStep)) t in
  let t := objSet "--border-strong"
             (var (varNamePrimitive (textPrimary m) borderStrongStep)) t in
  let t := objSet "--border-subtle"
             (var (varNamePrimitive (textPrimary m) borderSubtleStep)) t in
  let t := objSet "--accent"
             (var (varNamePrimitive (accentPrimary m) accentDefaultStep)) t in
  let t := objSet "--accent-hover"
             (var (varNamePrimitive (accentPrimary m) accentHoverStep)) t in
  let t := objSet "--accent-active"
             (var (varNamePrimitive (accentPrimary m) accentActiveStep)) t in
  let t := objSet "--accent-inverse"
             (var (varNamePrimitive (accentInverse m) accentDefaultStep)) t in
  let t := objSet "--link" (objRead t "--accent") t in
  let t := objSet "--link-hover" (objRead t "--accent-hover") t in
  let t := objSet "--link-active" (objRead t "--accent-active") t in
  t.

(** The body of the second loop, component part: [components[theme]], read
    from the finished [themes[theme]]. *)
Definition componentTokens (t : Obj) : Obj :=
  let k : Obj := [] in
  let k := objSet "--btn-primary-bg" (objRead t "--surface-inverse") k in
  let k := objSet "--btn-primary-text" (objRead t "--text-inverse") k in
  let k := objSet "--btn-primary-bg-hover" (objRead t "--accent-hover") k in
  let k := objSet "--btn-primary-bg-active" (objRead t "--accent-active") k in
  let k := objSet "--btn-primary-bg-disabled" (objRead t "--surface-secondary") k in
  let k := objSet "--btn-primary-text-disabled" (objRead t "--text-disabled") k in
  let k := objSet "--btn-secondary-bg" "transparent" k in
  let k := objSet "--btn-secondary-text" (objRead t "--text-primary") k in
  let k := objSet "--btn-secondary-border" (objRead t "--border-default") k in
  let k := objSet "--btn-secondary-bg-hover" (objRead t "--surface-secondary") k in
  let k := objSet "--btn-secondary-bg-active" (objRead t "--surface-secondary") k in
  let k := objSet "--btn-secondary-text-disabled" (objRead t "--text-disabled") k in
  let k := objSet "--btn-secondary-border-disabled" (objRead t "--border-subtle") k in
  let k := objSet "--input-bg" (objRead t "--surface-primary") k in
  let k := objSet "--input-text" (objRead t "--text-primary") k in
  let k := objSet "--input-placeholder" (objRead t "--text-muted") k in
  let k := objSet "--input-border" (objRead t "--border-default") k in
  let k := objSet "--input-border-focus" (objRead t "--accent") k in
  let k := objSet "--input-bg-disabled" (objRead t "--surface-secondary") k in
  let k := objSet "--input-text-disabled" (objRead t "--text-disabled") k in
  k.

(** [[a-z0-9]] *)
Definition isSlugChar (a : ascii) : bool :=
  (between 48 57 a || between 97 122 a)%bool.

Definition isDash (a : ascii) : bool := Ascii.eqb a "-".

(** [.replace(/[^a-z0-9]+/g, "-")]: every maximal run of other characters
    becomes one dash; [inRun] tells that the run has begun. *)
Fixpoint replaceRuns (inRun : bool) (s : string) : string :=
  match s with
  | EmptyString => EmptyString
  | String a r =>
      if isSlugChar a then String a (replaceRuns false r)
      else if inRun then replaceRuns true r
      else String "-" (replaceRuns true r)
  end.

(** [.replace(/^-+|-+$/g, "")]: the dashes at the start go, and those at
    the end. *)
Fixpoint stripStart (s : string) : string :=
  match s with
  | String a r => if isDash a then stripStart r else s
  | EmptyString => EmptyString
  end.

Fixpoint stripEnd (s : string) : string :=
  match s with
  | EmptyString => EmptyString
  | String a r =>
      match stripEnd r with
      | EmptyString => if isDash a then EmptyString else String a EmptyString
      | r' => String a r'
      end
  end.

Definition slugifyId (input : string) : string :=
  stripEnd (stripStart (replaceRuns false (toLowerCase (trim input)))).

(** After a character of [a-z0-9]: the rest of a string that matches
    /^[a-z0-9]+(-[a-z0-9]+)*$/. *)
Fixpoint slugTail (s : string) : bool :=
  match s with
  | EmptyString => true
  | String a r =>
      if isSlugChar a then slugTail r
      else if isDash a then
        match r with
        | String b r' => (isSlugChar b && slugTail r')%bool
        | EmptyString => false
        end
      else false
  end.

(** The shape of an id: groups of characters of [a-z0-9] with single dashes
    between them, or nothing at all. *)
Definition isSlug (s : string) : bool :=
  match s with
  | EmptyString => true
  | String a r => (isSlugChar a && slugTail r)%bool
  end.

(** Only characters of [a-z0-9-], and no dash right after a dash (when
    [afterDash], no dash first either). *)
Fixpoint dashSeparated (afterDash : bool) (s : string) : bool :=
  match s with
  | EmptyString => true
  | String a r =>
      if isSlugChar a then dashSeparated false r
      else (isDash a && negb afterDash && dashSeparated true r)%bool
  end.

Section TokenBuilder.
Context {L : Locale}.

(** The order [a, b] that [sort((a, b) => a.localeCompare(b))] accepts. *)
Definition localeLe (a b : string) : Prop := (localeCompare a b <= 0)%Z.

#[export] Instance localeLe_dec a b : Decision (localeLe a b).
Proof. unfold localeLe. apply _. Defined.

(** [keys.sort((a, b) => a.localeCompare(b))].  Array.prototype.sort is
    stable: of two keys that compare as equal, the one that came first
    stays first.  Insertion from the right end does that. *)
Fixpoint insertSorted (x : string) (sorted : list string) : list string :=
  match sorted with
  | [] => [x]
  | y :: rest =>
      if decide (localeLe x y) then x :: y :: rest
      else y :: insertSorted x rest
  end.

Definition arraySort (keys : list string) : list string :=
  foldr insertSorted [] keys.

(** [Object.keys(primitives).sort(...)] *)
Definition primitiveKeys (prims : Primitives) : list string :=
  arraySort (objKeys prims).

Definition rootBlock (prims : Primitives) : list string :=
  ([":root {"; "  /* Primitive ramps */"]
   ++ map (fun k => varLine k (primitiveRead prims k)) (primitiveKeys prims)
   ++ ["}"; ""])%list.

(** [Object.entries(o)] printed one declaration a line. *)
Definition declarations (o : Obj) : list string :=
  map (fun kv => varLine (fst kv) (snd kv)) o.

Definition themeBlock (theme : ThemeName) (sem comp : Obj) : list string :=
  (["[data-theme=" +:+ dquote +:+ themeName theme +:+ dquote +:+ "] {";
    "  /* Semantic tokens */"]
   ++ declarations sem
   ++ [""; "  /* Component tokens */"]
   ++ declarations comp
   ++ ["}"; ""])%list.

(** The array [lines] when the last loop is over. *)
Definition tokenLines (primitives : Primitives) (themes components : PerTheme Obj)
  : list string :=
  (rootBlock primitives
   ++ themeBlock light (atTheme themes light) (atTheme components light)
   ++ themeBlock dark (atTheme themes dark) (atTheme components dark))%list.

Definition buildTokens (palette : list PaletteColor) (ramps : RampMap)
    (mapping : PerTheme ThemeMapping) : TokenBundle :=
  let primitives := buildPrimitives palette ramps in
  let themes :=
    mkPerTheme (semanticTokens light (atTheme mapping light))
               (semanticTokens dark (atTheme mapping dark)) in
  let components :=
    mkPerTheme (componentTokens (atTheme themes light))
               (componentTokens (atTheme themes dark)) in
  let lines := tokenLines primitives themes components in
  mkTokenBundle (join newline lines) (mkJson primitives themes components).

End TokenBuilder.

End tokens.

(** ** app/page.tsx: what the page computes from its state

    The bodies of the useMemo hooks and the handlers that edit the palette,
    as functions of the state they read. *)

Module page.
Import ramp tokens.

(** [Row = PaletteColor & { ramp?: Ramp; error?: string }] *)
Record Row : Type := mkRow {
  id : string;
  label : string;
  hex : string;
  ramp : option Ramp;
  error : option string
}.

(** [({ id, label, hex }) => ({ id, label, hex })] *)
Definition toPaletteColor (r : Row) : PaletteColor :=
  mkPaletteColor (id r) (label r) (hex r).

(** The object that generateRamp9 returns, read as a [Ramp]; a step that
    were missing would read as undefined. *)
Definition asRamp (out : PartialRamp) : Ramp :=
  fun s => default "undefined" (out s).

(** Truthiness of [r.error]: a string that is not empty. *)
Definition truthy (e : option string) : bool :=
  match e with
  | Some EmptyString | None => false
  | Some _ => true
  end.

(** [overwritten || fallback] on strings. *)
Definition orElse (a fallback : string) : string :=
  match a with
  | EmptyString => fallback
  | _ => a
  end.

(** [`${i}`] for a counter. *)
Definition decimal (i : nat) : string :=
  NilEmpty.string_of_uint (Nat.to_uint i).

(** The loop of uniqueId from the state (i, id) on. *)
Fixpoint uniqueIdLoop (fuel : nat) (base : string) (used : gset string)
    (i : nat) (id : string) : outcome string :=
  match fuel with
  | O => OutOfFuel
  | S fuel' =>
      if bool_decide (id ∈ used) then
        let i := (i + 1)%nat in
        uniqueIdLoop fuel' base used i (base +:+ "-" +:+ decimal i)
      else Return id
  end.

Definition uniqueId (fuel : nat) (base : string) (used : gset string)
  : outcome string :=
  uniqueIdLoop fuel base used 1 base.

(** [new Set(prev.map((p) => p.id))] *)
Definition idSet (rows : list Row) : gset string := list_to_set (map id rows).

Definition addColor (fuel : nat) (prev : list Row) : outcome (list Row) :=
  do id <- uniqueId fuel "new-color" (idSet prev);
  Return (prev ++ [mkRow id "New Color" "#888888" None None])%list.

Definition removeColor (i : string) (prev : list Row) : list Row :=
  filter (fun p => id p <> i) prev.

(** [rampsById] *)
Definition rampsById (computed : list Row) : RampMap :=
  fold_left (fun m r => match ramp r with
                        | Some rp => <[id r := rp]> m
                        | None => m
                        end)
            computed ∅.

(** [Object.values(m).every((v) => ids.has(v))] *)
Definition slotsKnown (colorIds : list string) (m : ThemeMapping) : bool :=
  forallb (fun v => bool_decide (v ∈ (list_to_set colorIds : gset string)))
          (mappingSlots m).

Section Page.
Context {num : Type} {J : JsNumber num} {K : Culori num} {E : Engine}
        {L : Locale}.

(** The body of the try block of [computed]. *)
Definition tryRamp (fuel : nat) (stopSet : StopSet) (r : Row) : outcome Row :=
  do base <- normalizeHex fuel (hex r);
  do out <- generateRamp9 fuel base stopSet;
  do h <- normalizeHex fuel (hex r);
  Return (mkRow (id r) (label r) h (Some (asRamp out)) None).

(** One row of [computed]. *)
Definition computeRow (fuel : nat) (stopSet : StopSet) (r : Row) : outcome Row :=
  if negb (isValidHex (hex r)) then
    Return (mkRow (id r) (label r) (hex r) (ramp r) (Some "Invalid hex"))
  else
    match tryRamp fuel stopSet r with
    | Return row => Return row
    | Throw msg =>
        Return (mkRow (id r) (label r) (hex r) (ramp r)
                      (Some (orElse msg "Failed to generate ramp")))
    | OutOfFuel => OutOfFuel
    end.

(** [rows.map(...)] *)
Fixpoint computed (fuel : nat) (stopSet : StopSet) (rows : list Row)
  : outcome (list Row) :=
  match rows with
  | [] => Return []
  | r :: rest =>
      do row <- computeRow fuel stopSet r;
      do others <- computed fuel stopSet rest;
      Return (row :: others)
  end.

(** [tokenBundle], null being [None]. *)
Definition tokenBundle (fuel : nat) (stopSet : StopSet) (rows : list Row)
    (mapping : PerTheme ThemeMapping) : outcome (option TokenBundle) :=
  do cs <- computed fuel stopSet rows;
  let colorIds := map id rows in
  let ok := forallb (fun r => (bool_decide (is_Some (ramp r))
                               && negb (truthy (error r)))%bool) cs in
  if negb ok then Return None
  else if negb (slotsKnown colorIds (atTheme mapping light)) then Return None
  else if negb (slotsKnown colorIds (atTheme mapping dark)) then Return None
  else Return (Some (buildTokens (map toPaletteColor cs) (rampsById cs) mapping)).

End Page.

End page.

(** ** Implementations of the interfaces, for running the code

    [hexCulori] is a small colour library that understands hex notation
    only and measures a colour by its mean channel, its channel spread and
    its hexagon hue; [v8] words the TypeErrors as V8 does; [collation]
    compares strings in the manner of the runtime. *)

Module samples.
Import ramp tokens.

Inductive color : Type :=
| Rgb (r g b : Z)               (* three channels, each from 0 to 255 *)
| Lch (o : Oklch float).

Definition hexValue (a : ascii) : Z :=
  (if between 48 57 a then Z.of_N (code a) - 48
   else if between 97 102 a then Z.of_N (code a) - 87
   else Z.of_N (code a) - 55)%Z.

Definition channel (hi lo : ascii) : Z := (16 * hexValue hi + hexValue lo)%Z.

Definition parseHex (s : string) : option color :=
  let digits := match s with String "#" r => r | _ => s end in
  if allChars isHexDigit digits then
    match list_ascii_of_string digits with
    | [r; g; b] => Some (Rgb (channel r r) (channel g g) (channel b b))
    | [r1; r2; g1; g2; b1; b2] =>
        Some (Rgb (channel r1 r2) (channel g1 g2) (channel b1 b2))
    | _ => None
    end
  else None.

Definition hexagonHue (r g b : Z) : option Q :=
  let hi := Z.max r (Z.max g b) in
  let d := (hi - Z.min r (Z.min g b))%Z in
  if (d =? 0)%Z then None
  else if (hi =? r)%Z then Some (60 * (inject_Z (g - b) / inject_Z d))%Q
  else if (hi =? g)%Z then Some (60 * (inject_Z (b - r) / inject_Z d + 2))%Q
  else Some (60 * (inject_Z (r - g) / inject_Z d + 4))%Q.

Definition measure (k : option color) : option (Oklch float) :=
  match k with
  | None => None
  | Some (Lch o) => Some o
  | Some (Rgb r g b) =>
      Some (mkOklch
              (Some (floatLit (inject_Z (r + g + b) / 765)))
              (Some (floatLit (inject_Z (Z.max r (Z.max g b) - Z.min r (Z.min g b)) / 255)))
              (option_map (fun q => floatLit (Qred q)) (hexagonHue r g b)))
  end.

(** There is no way back from oklch in this library. *)
Definition asRgb (k : color) : option color :=
  match k with
  | Rgb r g b => Some (Rgb r g b)
  | Lch _ => None
  end.

Definition hexDigit (n : Z) : ascii :=
  if (n <? 10)%Z then ascii_of_N (Z.to_N (n + 48)%Z)
  else ascii_of_N (Z.to_N (n + 87)%Z).

Definition hexByte (n : Z) : string :=
  String (hexDigit (n / 16)%Z) (String (hexDigit (n mod 16)%Z) EmptyString).

Definition printHex (k : color) : option string :=
  match k with
  | Rgb r g b => Some ("#" +:+ hexByte r +:+ hexByte g +:+ hexByte b)
  | Lch _ => None
  end.

Definition hexCulori : Culori float := {|
  Color := color;
  parse := parseHex;
  toOklch := measure;
  toRgb := asRgb;
  clampGamutOf := fun name => if String.eqb name "rgb" then Some asRgb else None;
  formatHex := printHex
|}.

Definition v8 : Engine := {|
  cannotDestructure :=
    "Cannot destructure property 'gamut' of 'getMode(...)' as it is undefined.";
  cannotRead := "Cannot read properties of undefined (reading 'h')"
|}.

Definition sign (c : comparison) : Z :=
  match c with
  | Lt => (-1)%Z
  | Eq => 0%Z
  | Gt => 1%Z
  end.

(** Strings compare by their letters without regard to case; two strings
    that differ in case only compare lower case first.  On the keys of the
    examples below this is the order of localeCompare in V8. *)
Definition collate (a b : string) : Z :=
  match String.compare (toLowerCase a) (toLowerCase b) with
  | Eq => sign (String.compare b a)
  | c => sign c
  end.

Definition collation : Locale := {| localeCompare := collate |}.

(** A palette of two colours, with ramps that are easy to read. *)
Definition palette2 : list PaletteColor :=
  [mkPaletteColor "sky" "Sky" "#3366ff"; mkPaletteColor "ink" "Ink" "#111111"].

Definition inkRamp : Ramp := fun s =>
  match s with
  | S100 => "#e7e7e7" | S200 => "#cfcfcf" | S300 => "#b7b7b7"
  | S400 => "#a0a0a0" | S500 => "#111111" | S600 => "#0d0d0d"
  | S700 => "#0a0a0a" | S800 => "#060606" | S900 => "#030303"
  end.

Definition skyRamp : Ramp := fun s =>
  match s with
  | S100 => "#d6e0ff" | S200 => "#adc2ff" | S300 => "#85a3ff"
  | S400 => "#5c85ff" | S500 => "#3366ff" | S600 => "#2952cc"
  | S700 => "#1f3d99" | S800 => "#142966" | S900 => "#0a1433"
  end.

Definition ramps2 : RampMap := <["sky" := skyRamp]> (<["ink" := inkRamp]> ∅).

Definition mapping2 : PerTheme ThemeMapping :=
  mkPerTheme (mkThemeMapping "ink" "sky" "ink" "sky" "sky" "ink")
             (mkThemeMapping "ink" "sky" "ink" "sky" "sky" "ink").

(** The same mapping with one slot that names a colour nobody defined. *)
Definition mappingGhost : PerTheme ThemeMapping :=
  mkPerTheme (mkThemeMapping "ink" "sky" "ink" "sky" "sky" "ink")
             (mkThemeMapping "ink" "sky" "ghost" "sky" "sky" "ink").

(** A palette entry that has no ramp. *)
Definition paletteOrphan : list PaletteColor :=
  [mkPaletteColor "sky" "Sky" "#3366ff"; mkPaletteColor "fog" "Fog" "oops";
   mkPaletteColor "ink" "Ink" "#111111"].

(** A palette whose only entry bears the name of a member that every
    object inherits, and has no ramp. *)
Definition paletteConstructor : list PaletteColor :=
  [mkPaletteColor "constructor" "Constructor" "#336699"].



(** Rows of the page: two that are fine, and one whose hex is not a hex. *)
Definition rows2 : list page.Row :=
  [page.mkRow "sky" "Sky" "#36F" None None;
   page.mkRow "ink" "Ink" " #111111" None None].

Definition rowsBad : list page.Row :=
  [page.mkRow "sky" "Sky" "#36F" None None;
   page.mkRow "fog" "Fog" "oops" None None].

End samples.

(** * Properties *)

Import ramp tokens.

(** ** Hue arithmetic in binary64 *)

(** C7: the two wrapping functions miss the intervals (-180, 180] and
    [0, 360) at an edge.  From hue 180 to hue 0 the delta is -180, which
    (-180, 180] leaves out; a hue just below zero wraps to 360 itself,
    which [0, 360) leaves out, because the sum x + 360 rounds; and so does
    the hue interpolated half way (one unit in the last place more) from
    10 to 350. *)
Theorem hue_wrapping_misses_the_edges :
  shortestHueDelta (floatLit 180) (floatLit 0) = floatLit (-180)
  /\ PrimFloat.ltb (floatLit (-180)) (shortestHueDelta (floatLit 180) (floatLit 0))
     = false
  /\ wrapHue (floatLit (-1 # 1000000000000000)) = floatLit 360
  /\ PrimFloat.ltb (wrapHue (floatLit (-1 # 1000000000000000))) (floatLit 360)
     = false
  /\ h (lerpOklch (mkOklch None None (Some (floatLit 10)))
                  (mkOklch None None (Some (floatLit 350)))
                  (floatLit (4503599627370497 # 9007199254740992)))
     = Some (floatLit 360).
Proof. repeat split; vm_compute; reflexivity. Qed.

(** ** Strings *)

Lemma lowerHexDigit_plain (a : ascii) :
  isLowerHexDigit a = true -> isWhiteSpace a = false /\ lowerChar a = a.
Proof.
  destruct a as [[] [] [] [] [] [] [] []]; vm_compute; intros E;
    first [discriminate E | split; reflexivity].
Qed.

Lemma hexDigit_lower (a : ascii) :
  isHexDigit a = true ->
  isWhiteSpace a = false /\ isLowerHexDigit (lowerChar a) = true.
Proof.
  destruct a as [[] [] [] [] [] [] [] []]; vm_compute; intros E;
    first [discriminate E | split; reflexivity].
Qed.

Lemma trimEnd_lowerHex (r : string) :
  allChars isLowerHexDigit r = true -> trimEnd r = r.
Proof.
  induction r as [|a r IH]; simpl; [reflexivity|].
  intros E. apply andb_prop in E as [Ea Er].
  rewrite (IH Er). destruct r; [|reflexivity].
  destruct (lowerHexDigit_plain a Ea) as [-> _]. reflexivity.
Qed.

Lemma toLowerCase_lowerHex (r : string) :
  allChars isLowerHexDigit r = true -> toLowerCase r = r.
Proof.
  induction r as [|a r IH]; simpl; [reflexivity|].
  intros E. apply andb_prop in E as [Ea Er].
  rewrite (IH Er). destruct (lowerHexDigit_plain a Ea) as [_ ->]. reflexivity.
Qed.

(** A string that matches /^#[0-9a-f]{n}$/ is left alone by trim and by
    toLowerCase. *)
Lemma trim_lower_hashDigits (n : nat) (s : string) :
  testHashDigits isLowerHexDigit n s = true -> toLowerCase (trim s) = s.
Proof.
  unfold testHashDigits. destruct s as [|a r]; [discriminate|].
  destruct (Ascii.eqb_spec a "#") as [->|Hne].
  - intros E. apply andb_prop in E as [_ Er].
    unfold trim. cbn [trimStart]. change (isWhiteSpace "#") with false. cbv iota.
    cbn [trimEnd]. rewrite (trimEnd_lowerHex r Er).
    change (isWhiteSpace "#") with false.
    cbn [toLowerCase].
    assert (toLowerCase (String "#" r) = String "#" r) as Hl.
    { cbn [toLowerCase]. rewrite (toLowerCase_lowerHex r Er). reflexivity. }
    destruct r; [reflexivity|]. exact Hl.
  - intros E. exfalso.
    destruct a as [[] [] [] [] [] [] [] []]; first [discriminate E | apply Hne; reflexivity].
Qed.

Lemma testHashDigits_3_inv (p : ascii -> bool) (s : string) :
  testHashDigits p 3 s = true ->
  exists a b c, s = String "#" (String a (String b (String c EmptyString)))
                /\ p a = true /\ p b = true /\ p c = true.
Proof.
  unfold testHashDigits. destruct s as [|x r]; [discriminate|].
  destruct (Ascii.eqb_spec x "#") as [->|Hne].
  - intros E. apply andb_prop in E as [El Ep].
    destruct r as [|a [|b [|c [|? ?]]]]; try discriminate El.
    simpl in Ep.
    apply andb_prop in Ep as [Ea Ep]. apply andb_prop in Ep as [Eb Ep].
    apply andb_prop in Ep as [Ec _]. eauto 10.
  - intros E. exfalso.
    destruct x as [[] [] [] [] [] [] [] []]; first [discriminate E | apply Hne; reflexivity].
Qed.

Lemma testHashDigits_length (p : ascii -> bool) (n : nat) (s : string) :
  testHashDigits p n s = true -> String.length s = S n.
Proof.
  unfold testHashDigits. destruct s as [|x r]; [discriminate|].
  intros E. assert (Nat.eqb (String.length r) n = true) as El.
  { destruct x as [[] [] [] [] [] [] [] []]; try discriminate E.
    apply andb_prop in E as [El _]. exact El. }
  apply Nat.eqb_eq in El. simpl. congruence.
Qed.

(** ** normalizeHex *)

Section NormalizeHex.
Context {num : Type} {K : Culori num}.

(** A string in canonical form is returned as it is, whatever culori does. *)
Lemma normalizeHex_canonical (fuel : nat) (y : string) :
  testHashDigits isLowerHexDigit 6 y = true ->
  normalizeHex (S fuel) y = Return y.
Proof.
  intros E. cbn [normalizeHex].
  rewrite (trim_lower_hashDigits 6 y E).
  destruct (testHashDigits isLowerHexDigit 3 y) eqn:E3.
  - apply testHashDigits_length in E3. apply testHashDigits_length in E. congruence.
  - rewrite E. reflexivity.
Qed.

(** Every result of normalizeHex matches /^#[0-9a-f]{6}$/. *)
Lemma normalizeHex_result (fuel : nat) (x y : string) :
  normalizeHex fuel x = Return y ->
  testHashDigits isLowerHexDigit 6 y = true.
Proof.
  revert x y. induction fuel as [|fuel IH]; intros x y; cbn [normalizeHex]; [discriminate|].
  destruct (testHashDigits isLowerHexDigit 3 _) eqn:E3.
  - apply testHashDigits_3_inv in E3 as (a & b & c & -> & Ea & Eb & Ec).
    intros [= <-]. cbv [charAt String.get String.append testHashDigits].
    cbn [String.length allChars Nat.eqb andb].
    rewrite Ea, Eb, Ec. reflexivity.
  - destruct (testHashDigits isLowerHexDigit 6 _) eqn:E6.
    + intros [= <-]. exact E6.
    + destruct (parse _) as [p|]; [|discriminate]. cbn [orThrow obind].
      destruct (formatHex p) as [formatted|]; [|discriminate]. cbn [orThrow obind].
      apply IH.
Qed.

(** The three-digit shorthand, in either case of the digits. *)
Lemma normalizeHex_shorthand (fuel : nat) (a b c : ascii) :
  isHexDigit a = true -> isHexDigit b = true -> isHexDigit c = true ->
  normalizeHex (S fuel) (String "#" (String a (String b (String c EmptyString))))
  = Return (String "#"
             (String (lowerChar a) (String (lowerChar a)
             (String (lowerChar b) (String (lowerChar b)
             (String (lowerChar c) (String (lowerChar c) EmptyString))))))).
Proof.
  intros Ea Eb Ec.
  destruct (hexDigit_lower a Ea) as [Wa La].
  destruct (hexDigit_lower b Eb) as [Wb Lb].
  destruct (hexDigit_lower c Ec) as [Wc Lc].
  cbn [normalizeHex]. unfold trim. cbn [trimStart].
  change (isWhiteSpace "#") with false. cbv iota.
  cbn [trimEnd]. rewrite Wc. cbv iota. cbn [toLowerCase].
  change (lowerChar "#") with "#"%char.
  unfold testHashDigits at 1. cbn [String.length allChars Nat.eqb].
  rewrite La, Lb, Lc. reflexivity.
Qed.

(** C8: normalizeHex is idempotent on what it accepts, every result of it
    matches /^#[0-9a-f]{6}$/, and the shorthand #abc comes out as #aabbcc
    (the digits doubled, in lower case). *)
Theorem normalizeHex_idempotent (fuel : nat) (x y : string) :
  normalizeHex fuel x = Return y ->
  normalizeHex fuel y = Return y
  /\ testHashDigits isLowerHexDigit 6 y = true
  /\ normalizeHex fuel "#abc" = Return "#aabbcc"
  /\ (forall a b c : ascii,
        isHexDigit a = true -> isHexDigit b = true -> isHexDigit c = true ->
        normalizeHex fuel (String "#" (String a (String b (String c EmptyString))))
        = Return (String "#"
                   (String (lowerChar a) (String (lowerChar a)
                   (String (lowerChar b) (String (lowerChar b)
                   (String (lowerChar c) (String (lowerChar c) EmptyString)))))))).
Proof.
  intros E. pose proof (normalizeHex_result fuel x y E) as E6.
  destruct fuel as [|fuel]; [discriminate E|].
  split; [apply normalizeHex_canonical; exact E6|].
  split; [exact E6|].
  split; [reflexivity|].
  intros a b c. apply normalizeHex_shorthand.
Qed.

End NormalizeHex.

(** ** generateRamp9 *)

Section GenerateRamp9.
Context {num : Type} {J : JsNumber num} {K : Culori num} {E : Engine}.

(** toHexSafe does not get past its first line: the call of clampGamut on
    a colour throws. *)
Lemma toHexSafe_throws (fuel : nat) (o : Oklch num) :
  toHexSafe fuel o = Throw cannotDestructure.
Proof. reflexivity. Qed.

(** Hence the loop stops in its first round. *)
Lemma fillSteps_throws (fuel : nat) (light base dark : Oklch num)
    (stopSet : StopSet) (out : PartialRamp) :
  fillSteps fuel light base dark (zip ramp.steps (positions stopSet)) out
  = Throw cannotDestructure.
Proof. destruct stopSet; reflexivity. Qed.

(** Once the base colour is known to convert, sampleWhiteBaseBlack returns
    or fails on reading white or black. *)
Lemma sampleWhiteBaseBlack_outcome (baseHex : string) (t : num) (base : Oklch num) :
  toOklch (parse baseHex) = Some base ->
  (exists o, sampleWhiteBaseBlack baseHex t = Return o)
  \/ sampleWhiteBaseBlack baseHex t = Throw cannotRead.
Proof.
  unfold sampleWhiteBaseBlack, nonNull. intros ->. cbn [orThrow obind].
  destruct (nleb t (lit 0.5)).
  - destruct (toOklch (parse "#ffffff")); cbn [orThrow obind]; eauto.
  - destruct (toOklch (parse "#000000")); cbn [orThrow obind]; eauto.
Qed.

Lemma sampleWhiteBaseBlack_returns (baseHex : string) (t : num)
    (base white black : Oklch num) :
  toOklch (parse baseHex) = Some base ->
  toOklch (parse "#ffffff") = Some white ->
  toOklch (parse "#000000") = Some black ->
  exists o, sampleWhiteBaseBlack baseHex t = Return o.
Proof.
  unfold sampleWhiteBaseBlack, nonNull. intros -> -> ->. cbn [orThrow obind].
  destruct (nleb t (lit 0.5)); eauto.
Qed.

(** Every call of generateRamp9 throws. *)
Lemma generateRamp9_throws (fuel : nat) (baseHex : string) (stopSet : StopSet) :
  exists msg : string,
    generateRamp9 fuel baseHex stopSet = Throw msg
    /\ In msg ["Invalid hex color"; cannotRead; cannotDestructure].
Proof.
  unfold generateRamp9.
  destruct (parse baseHex) as [p|] eqn:Hp;
    [|eexists; split; [reflexivity|cbn; tauto]].
  destruct (toOklch (Some p)) as [base|] eqn:Hb;
    [|eexists; split; [reflexivity|cbn; tauto]].
  cbn [orThrow obind].
  assert (toOklch (parse baseHex) = Some base) as Hbase by (rewrite Hp; exact Hb).
  destruct (sampleWhiteBaseBlack_outcome baseHex (lit 0.25) base Hbase) as [[lo ->]| ->];
    [|eexists; split; [reflexivity|cbn; tauto]].
  cbn [obind].
  destruct (sampleWhiteBaseBlack_outcome baseHex (lit 0.75) base Hbase) as [[hi ->]| ->];
    [|eexists; split; [reflexivity|cbn; tauto]].
  cbn [obind]. rewrite fillSteps_throws. cbn [obind].
  eexists; split; [reflexivity|cbn; tauto].
Qed.

Lemma generateRamp9_clampGamut (fuel : nat) (baseHex : string) (stopSet : StopSet)
    (p : Color) (base white black : Oklch num) :
  parse baseHex = Some p -> toOklch (Some p) = Some base ->
  toOklch (parse "#ffffff") = Some white ->
  toOklch (parse "#000000") = Some black ->
  generateRamp9 fuel baseHex stopSet = Throw cannotDestructure.
Proof.
  intros Hp Hb Hw Hk. unfold generateRamp9. rewrite Hp, Hb. cbn [orThrow obind].
  assert (toOklch (parse baseHex) = Some base) as Hbase by (rewrite Hp; exact Hb).
  destruct (sampleWhiteBaseBlack_returns baseHex (lit 0.25) _ _ _ Hbase Hw Hk) as [lo ->].
  destruct (sampleWhiteBaseBlack_returns baseHex (lit 0.75) _ _ _ Hbase Hw Hk) as [hi ->].
  cbn [obind]. rewrite fillSteps_throws. reflexivity.
Qed.

(** C3: step 500 is never set to the normalized base, because the line
    that sets it is never reached.  No call of generateRamp9 returns a
    ramp; for a base colour that parses and converts (as white and black
    do) the call throws the TypeError of clampGamut in the first round of
    the loop, whichever the stop set and whatever normalizeHex makes of
    the base. *)
Theorem base_override_is_never_reached (fuel : nat) (baseHex : string)
    (stopSet : StopSet) :
  (forall r : PartialRamp, generateRamp9 fuel baseHex stopSet <> Return r)
  /\ (forall (p : Color) (base white black : Oklch num),
        parse baseHex = Some p -> toOklch (Some p) = Some base ->
        toOklch (parse "#ffffff") = Some white ->
        toOklch (parse "#000000") = Some black ->
        generateRamp9 fuel baseHex stopSet = Throw cannotDestructure)
  /\ (forall light base dark : Oklch num,
        fillSteps fuel light base dark (zip ramp.steps (positions stopSet)) emptyRamp
        = Throw cannotDestructure).
Proof.
  split; [|split].
  - intros r Er. destruct (generateRamp9_throws fuel baseHex stopSet) as (msg & Em & _).
    congruence.
  - intros p base white black. apply generateRamp9_clampGamut.
  - intros light base dark. apply fillSteps_throws.
Qed.

(** C4: no ramp comes out of generateRamp9, with nine keys or otherwise.
    toHexSafe throws on every colour, since clampGamut is called on the
    colour where it expects the name of a mode, and so every call of
    generateRamp9 ends in an error. *)
Theorem no_ramp_is_returned (fuel : nat) :
  (forall o : Oklch num, toHexSafe fuel o = Throw cannotDestructure)
  /\ (forall o : Oklch num, clampGamut (ColorObject o) = Throw cannotDestructure)
  /\ forall (baseHex : string) (stopSet : StopSet),
       exists msg : string, generateRamp9 fuel baseHex stopSet = Throw msg.
Proof.
  split; [intros o; apply toHexSafe_throws|]. split; [reflexivity|].
  intros baseHex stopSet.
  destruct (generateRamp9_throws fuel baseHex stopSet) as (msg & Em & _). eauto.
Qed.

(** C10: the two stop sets give no ramps to compare.  For one base colour
    the two calls end alike, in the same error, although the positions of
    the steps 100, 300, 500, 700 and 900 are indeed the same in both stop
    sets. *)
Theorem stop_sets_fail_alike (fuel : nat) (baseHex : string) :
  generateRamp9 fuel baseHex figma = generateRamp9 fuel baseHex even
  /\ (forall r : PartialRamp,
        generateRamp9 fuel baseHex figma <> Return r
        /\ generateRamp9 fuel baseHex even <> Return r)
  /\ (forall i : nat, In i [0; 2; 4; 6; 8]%nat ->
        positions figma !! i = positions even !! i).
Proof.
  split; [|split].
  - unfold generateRamp9.
    destruct (match parse baseHex with Some p => toOklch (Some p) | None => None end);
      [|reflexivity].
    cbn [orThrow obind].
    destruct (sampleWhiteBaseBlack baseHex (lit 0.25)); [|reflexivity..].
    cbn [obind].
    destruct (sampleWhiteBaseBlack baseHex (lit 0.75)); [|reflexivity..].
    cbn [obind]. rewrite !fillSteps_throws. reflexivity.
  - intros r. split; intros Er.
    + destruct (generateRamp9_throws fuel baseHex figma) as (msg & Em & _). congruence.
    + destruct (generateRamp9_throws fuel baseHex even) as (msg & Em & _). congruence.
  - intros i Hi. cbn in Hi.
    destruct Hi as [<-|[<-|[<-|[<-|[<-|[]]]]]]; reflexivity.
Qed.

(** X5: generateRamp9 raises "Invalid hex color" whenever the base does
    not parse or does not convert; otherwise it raises a TypeError, that
    of clampGamut or that of reading a white or black that did not
    convert.  It ends in no other way. *)
Theorem generateRamp9_errors (fuel : nat) (baseHex : string) (stopSet : StopSet) :
  (parse baseHex = None -> generateRamp9 fuel baseHex stopSet = Throw "Invalid hex color")
  /\ (forall p, parse baseHex = Some p -> toOklch (Some p) = None ->
        generateRamp9 fuel baseHex stopSet = Throw "Invalid hex color")
  /\ (forall p base, parse baseHex = Some p -> toOklch (Some p) = Some base ->
        generateRamp9 fuel baseHex stopSet = Throw cannotDestructure
        \/ generateRamp9 fuel baseHex stopSet = Throw cannotRead)
  /\ exists msg : string,
       generateRamp9 fuel baseHex stopSet = Throw msg
       /\ In msg ["Invalid hex color"; cannotRead; cannotDestructure].
Proof.
  split; [|split; [|split]].
  - intros Hp. unfold generateRamp9. rewrite Hp. reflexivity.
  - intros p Hp Ho. unfold generateRamp9. rewrite Hp, Ho. reflexivity.
  - intros p base Hp Hb. unfold generateRamp9. rewrite Hp, Hb. cbn [orThrow obind].
    assert (toOklch (parse baseHex) = Some base) as Hbase by (rewrite Hp; exact Hb).
    destruct (sampleWhiteBaseBlack_outcome baseHex (lit 0.25) base Hbase) as [[lo ->]| ->];
      [|right; reflexivity].
    cbn [obind].
    destruct (sampleWhiteBaseBlack_outcome baseHex (lit 0.75) base Hbase) as [[hi ->]| ->];
      [|right; reflexivity].
    cbn [obind]. rewrite fillSteps_throws. left. reflexivity.
  - apply generateRamp9_throws.
Qed.

End GenerateRamp9.

(** ** Objects as ordered lists of entries *)

Section Objects.
Context {V : Type}.

Lemma objGet_objSet_same (k : string) (v : V) (o : Entries V) :
  objGet (objSet k v o) k = Some v.
Proof.
  induction o as [|[k' v'] r IH]; cbn.
  - rewrite String.eqb_refl. reflexivity.
  - destruct (String.eqb_spec k' k) as [->|Hne]; cbn.
    + rewrite String.eqb_refl. reflexivity.
    + destruct (String.eqb_spec k' k); [contradiction|exact IH].
Qed.

Lemma objGet_objSet_other (k k' : string) (v : V) (o : Entries V) :
  k' <> k -> objGet (objSet k v o) k' = objGet o k'.
Proof.
  intros Hne. induction o as [|[k0 v0] r IH]; cbn.
  - destruct (String.eqb_spec k k'); [congruence|reflexivity].
  - destruct (String.eqb_spec k0 k) as [->|Hk0]; cbn.
    + destruct (String.eqb_spec k k'); [congruence|reflexivity].
    + destruct (String.eqb_spec k0 k'); [reflexivity|exact IH].
Qed.

Lemma objKeys_objSet (k k' : string) (v : V) (o : Entries V) :
  In k' (objKeys (objSet k v o)) <-> k' = k \/ In k' (objKeys o).
Proof.
  unfold objKeys. induction o as [|[k0 v0] r IH]; cbn.
  - intuition.
  - destruct (String.eqb_spec k0 k) as [->|Hk0]; cbn; intuition.
Qed.

Lemma objGet_None (o : Entries V) (k : string) :
  objGet o k = None <-> ~ In k (objKeys o).
Proof.
  unfold objKeys. induction o as [|[k0 v0] r IH]; cbn.
  - intuition.
  - destruct (String.eqb_spec k0 k) as [->|Hk0].
    + split; [discriminate|]. intros Hn. exfalso. apply Hn. left. reflexivity.
    + rewrite IH. intuition.
Qed.


(** Writing the value that is there changes nothing. *)
Lemma objSet_same_value (k : string) (v : V) (o : Entries V) :
  objGet o k = Some v -> objSet k v o = o.
Proof.
  induction o as [|[k0 v0] r IH]; cbn [objGet objSet]; [discriminate|].
  destruct (String.eqb_spec k0 k) as [->|Hne].
  - intros [= ->]. reflexivity.
  - intros Eq. rewrite (IH Eq). reflexivity.
Qed.

End Objects.

(** ** Names of primitives *)

Lemma append_length (a b : string) :
  String.length (a +:+ b) = (String.length a + String.length b)%nat.
Proof.
  induction a as [|x a IH]; [reflexivity|].
  change (String x a +:+ b) with (String x (a +:+ b)).
  cbn [String.length]. rewrite IH. reflexivity.
Qed.

Lemma append_inj_suffix (a b x y : string) :
  String.length x = String.length y -> a +:+ x = b +:+ y -> a = b /\ x = y.
Proof.
  intros Hlen. revert b. induction a as [|c a IH]; intros [|d b] E.
  - split; [reflexivity|exact E].
  - exfalso. apply (f_equal String.length) in E.
    rewrite !append_length in E. cbn [String.length] in E. lia.
  - exfalso. apply (f_equal String.length) in E.
    rewrite !append_length in E. cbn [String.length] in E. lia.
  - change (String c (a +:+ x) = String d (b +:+ y)) in E.
    injection E as -> E. destruct (IH b E) as [-> ->]. split; reflexivity.
Qed.

Lemma append_inj_prefix (a x y : string) : a +:+ x = a +:+ y -> x = y.
Proof.
  induction a as [|c a IH]; [trivial|].
  change (String c (a +:+ x) = String c (a +:+ y) -> x = y).
  intros [= E]. exact (IH E).
Qed.

Lemma stepToString_inj (s s' : RampStep) :
  stepToString s = stepToString s' -> s = s'.
Proof. destruct s, s'; first [reflexivity | discriminate]. Qed.

Lemma varNamePrimitive_inj (id id' : string) (s s' : RampStep) :
  varNamePrimitive id s = varNamePrimitive id' s' -> id = id' /\ s = s'.
Proof.
  unfold varNamePrimitive. intros E.
  apply append_inj_prefix in E.
  apply append_inj_suffix in E as [-> E]; [|destruct s, s'; reflexivity].
  apply append_inj_prefix in E. split; [reflexivity|exact (stepToString_inj _ _ E)].
Qed.

(** ** The primitive layer *)

Section Primitives.
Variable ramps : RampMap.

(** A key of the primitives comes from a palette entry under whose id the
    ramp map holds something. *)
Local Abbreviation fromPalette palette k :=
  (exists (c : PaletteColor) (s : RampStep),
     In c palette /\ rampOf ramps (id c) <> NotFound
     /\ k = varNamePrimitive (id c) s).

Lemma rampOf_own (i : string) (ramp : Ramp) :
  ramps !! i = Some ramp -> rampOf ramps i = OwnRamp ramp.
Proof. intros Hr. unfold rampOf. rewrite Hr. reflexivity. Qed.

Lemma rampOf_inherited (i : string) :
  ramps !! i = None -> In i objectPrototypeMembers -> rampOf ramps i = Inherited.
Proof.
  intros Hr Hin. unfold rampOf. rewrite Hr.
  rewrite bool_decide_eq_true_2; [reflexivity|apply list_elem_of_In; exact Hin].
Qed.

Lemma rampOf_not_found (i : string) :
  ramps !! i = None -> ~ In i objectPrototypeMembers -> rampOf ramps i = NotFound.
Proof.
  intros Hr Hin. unfold rampOf. rewrite Hr.
  rewrite bool_decide_eq_false_2; [reflexivity|].
  rewrite list_elem_of_In. exact Hin.
Qed.

(** What [ramps[i]] finds is a ramp of the map's own or an inherited
    member. *)
Lemma rampOf_found (i : string) :
  rampOf ramps i <> NotFound <->
  is_Some (ramps !! i) \/ In i objectPrototypeMembers.
Proof.
  unfold rampOf. destruct (ramps !! i) as [ramp|].
  - split; [intros _; left; eauto|intros _; discriminate].
  - destruct (bool_decide (i ∈ objectPrototypeMembers)) eqn:Eb.
    + apply bool_decide_eq_true in Eb. apply list_elem_of_In in Eb.
      split; [intros _; right; exact Eb|intros _; discriminate].
    + apply bool_decide_eq_false in Eb. split; [intros Hn; contradiction|].
      intros [[? Hs]|Hin]; [discriminate Hs|].
      exfalso. apply Eb. apply list_elem_of_In. exact Hin.
Qed.

Lemma rampOf_cases (i : string) :
  rampOf ramps i = NotFound \/ rampOf ramps i <> NotFound.
Proof. destruct (rampOf ramps i); [right; discriminate ..|left; reflexivity]. Qed.

Lemma addPaletteColor_found (prims : Primitives) (c : PaletteColor) :
  rampOf ramps (id c) <> NotFound ->
  addPaletteColor ramps prims c = addRamp (id c) (rampOf ramps (id c)) prims.
Proof.
  intros Hf. unfold addPaletteColor.
  destruct (rampOf ramps (id c)); [reflexivity|reflexivity|contradiction].
Qed.

Lemma addPaletteColor_not_found (prims : Primitives) (c : PaletteColor) :
  rampOf ramps (id c) = NotFound -> addPaletteColor ramps prims c = prims.
Proof. intros Hf. unfold addPaletteColor. rewrite Hf. reflexivity. Qed.

Lemma addRamp_keys (i : string) (ramp : Found) (prims : Primitives) (k : string) :
  In k (objKeys (addRamp i ramp prims)) <->
  In k (objKeys prims) \/ exists s, k = varNamePrimitive i s.
Proof.
  unfold addRamp, tokens.steps. cbn [fold_left].
  rewrite !objKeys_objSet. split.
  - intros H. repeat (destruct H as [H|H]; [right; eexists; exact H|]). left. exact H.
  - intros [H|[s ->]]; [tauto|]. destruct s; tauto.
Qed.


Lemma addRamp_get_same (i : string) (ramp : Found) (prims : Primitives) (s : RampStep) :
  objGet (addRamp i ramp prims) (varNamePrimitive i s) = Some (stepOf ramp s).
Proof.
  unfold addRamp, tokens.steps. cbn [fold_left].
  destruct s;
    repeat (rewrite objGet_objSet_other
              by (intros Eq; apply varNamePrimitive_inj in Eq as [_ Eq]; discriminate Eq));
    apply objGet_objSet_same.
Qed.

Lemma addRamp_get_other (i : string) (ramp : Found) (prims : Primitives) (k : string) :
  (forall s, k <> varNamePrimitive i s) ->
  objGet (addRamp i ramp prims) k = objGet prims k.
Proof.
  intros Hk. unfold addRamp, tokens.steps. cbn [fold_left].
  repeat (rewrite objGet_objSet_other by apply Hk). reflexivity.
Qed.

Lemma addRamp_present (i : string) (ramp : Found) (prims : Primitives) :
  (forall s, objGet prims (varNamePrimitive i s) = Some (stepOf ramp s)) ->
  addRamp i ramp prims = prims.
Proof.
  intros Hall. unfold addRamp, tokens.steps. cbn [fold_left].
  assert (forall s, objSet (varNamePrimitive i s) (stepOf ramp s) prims = prims) as Hsame
    by (intros s; apply objSet_same_value, Hall).
  rewrite !Hsame. reflexivity.
Qed.

Lemma fold_addPaletteColor_keys (palette : list PaletteColor) (acc : Primitives)
    (k : string) :
  In k (objKeys (fold_left (addPaletteColor ramps) palette acc)) ->
  In k (objKeys acc) \/ fromPalette palette k.
Proof.
  revert acc. induction palette as [|c rest IH]; intros acc; cbn [fold_left].
  - intros Hk. left. exact Hk.
  - intros Hk. apply IH in Hk as [Hk|(c' & s & Hin & Hr & ->)].
    + destruct (rampOf_cases (id c)) as [Hn|Hf].
      * rewrite (addPaletteColor_not_found _ _ Hn) in Hk. left. exact Hk.
      * rewrite (addPaletteColor_found _ _ Hf) in Hk.
        apply addRamp_keys in Hk as [Hk|[s ->]]; [left; exact Hk|].
        right. exists c, s. split; [left; reflexivity|split; [exact Hf|reflexivity]].
    + right. exists c', s. split; [right; exact Hin|split; [exact Hr|reflexivity]].
Qed.

Lemma buildPrimitives_keys (palette : list PaletteColor) (k : string) :
  In k (objKeys (buildPrimitives palette ramps)) -> fromPalette palette k.
Proof.
  intros Hk. apply fold_addPaletteColor_keys in Hk as [[]|Hk]. exact Hk.
Qed.


(** An id under which the ramp map holds nothing owns no primitive. *)
Lemma buildPrimitives_not_found (palette : list PaletteColor) (i : string)
    (s : RampStep) :
  rampOf ramps i = NotFound ->
  objGet (buildPrimitives palette ramps) (varNamePrimitive i s) = None.
Proof.
  intros Hnone. apply objGet_None. intros Hk.
  apply buildPrimitives_keys in Hk as (c & s' & _ & Hr & Eq).
  apply varNamePrimitive_inj in Eq as [-> _]. contradiction.
Qed.

(** A primitive that is in place stays in place. *)
Lemma addPaletteColor_keeps (prims : Primitives) (c : PaletteColor) (i : string)
    (s : RampStep) :
  objGet prims (varNamePrimitive i s) = Some (stepOf (rampOf ramps i) s) ->
  objGet (addPaletteColor ramps prims c) (varNamePrimitive i s)
  = Some (stepOf (rampOf ramps i) s).
Proof.
  intros Hg.
  destruct (rampOf_cases (id c)) as [Hn|Hf].
  - rewrite (addPaletteColor_not_found _ _ Hn). exact Hg.
  - rewrite (addPaletteColor_found _ _ Hf).
    destruct (decide (id c = i)) as [Eq|Hne].
    + rewrite Eq. apply addRamp_get_same.
    + rewrite addRamp_get_other; [exact Hg|].
      intros s' Eq. apply varNamePrimitive_inj in Eq as [Eq _]. congruence.
Qed.

Lemma fold_addPaletteColor_keeps (palette : list PaletteColor) (prims : Primitives)
    (i : string) (s : RampStep) :
  objGet prims (varNamePrimitive i s) = Some (stepOf (rampOf ramps i) s) ->
  objGet (fold_left (addPaletteColor ramps) palette prims) (varNamePrimitive i s)
  = Some (stepOf (rampOf ramps i) s).
Proof.
  revert prims. induction palette as [|c rest IH]; intros prims Hg;
    cbn [fold_left]; [exact Hg|].
  apply IH. apply addPaletteColor_keeps. exact Hg.
Qed.

(** The primitives of a palette entry under whose id the ramp map holds
    something: what [ramp[s]] reads there, for each step. *)
Lemma buildPrimitives_get (palette : list PaletteColor) (c : PaletteColor)
    (s : RampStep) :
  In c palette -> rampOf ramps (id c) <> NotFound ->
  objGet (buildPrimitives palette ramps) (varNamePrimitive (id c) s)
  = Some (stepOf (rampOf ramps (id c)) s).
Proof.
  intros Hin Hf. unfold buildPrimitives.
  apply in_split in Hin as (before & after & ->).
  rewrite fold_left_app. cbn [fold_left].
  apply fold_addPaletteColor_keeps.
  rewrite (addPaletteColor_found _ c Hf). apply addRamp_get_same.
Qed.

Lemma buildPrimitives_get_own (palette : list PaletteColor) (c : PaletteColor)
    (ramp : Ramp) (s : RampStep) :
  In c palette -> ramps !! id c = Some ramp ->
  objGet (buildPrimitives palette ramps) (varNamePrimitive (id c) s)
  = Some (Text (ramp s)).
Proof.
  intros Hin Hr. rewrite (buildPrimitives_get palette c s Hin).
  - rewrite (rampOf_own _ _ Hr). reflexivity.
  - rewrite (rampOf_own _ _ Hr). discriminate.
Qed.

(** A palette entry under whose id the ramp map holds nothing is passed
    over, wherever it stands. *)
Lemma buildPrimitives_skip (before after : list PaletteColor) (c : PaletteColor) :
  rampOf ramps (id c) = NotFound ->
  buildPrimitives (before ++ c :: after) ramps = buildPrimitives (before ++ after) ramps.
Proof.
  intros Hn. unfold buildPrimitives. rewrite !fold_left_app. cbn [fold_left].
  rewrite (addPaletteColor_not_found _ _ Hn). reflexivity.
Qed.

(** So is an entry that repeats the id of an earlier one. *)
Lemma buildPrimitives_repeat (before after : list PaletteColor) (c c' : PaletteColor) :
  In c' before -> id c' = id c ->
  buildPrimitives (before ++ c :: after) ramps = buildPrimitives (before ++ after) ramps.
Proof.
  intros Hin Hid.
  unfold buildPrimitives. rewrite !fold_left_app. cbn [fold_left]. f_equal.
  destruct (rampOf_cases (id c)) as [Hn|Hf].
  - apply addPaletteColor_not_found. exact Hn.
  - rewrite (addPaletteColor_found _ _ Hf).
    apply addRamp_present. intros s. rewrite <- Hid.
    apply buildPrimitives_get; [exact Hin|]. rewrite Hid. exact Hf.
Qed.

End Primitives.

(** ** The semantic and the component layer *)

(** [themes[theme]] with every assignment carried out. *)
Lemma semanticTokens_table (theme : ThemeName) (m : ThemeMapping) :
  semanticTokens theme m =
  [("--surface-primary", var (varNamePrimitive (surfacePrimary m) (ifLight theme S100 S900)));
   ("--surface-secondary", var (varNamePrimitive (surfacePrimary m) (ifLight theme S200 S800)));
   ("--surface-inverse", var (varNamePrimitive (surfaceInverse m) (ifLight theme S900 S100)));
   ("--text-primary", var (varNamePrimitive (textPrimary m) (ifLight theme S900 S100)));
   ("--text-secondary", var (varNamePrimitive (textPrimary m) (ifLight theme S700 S200)));
   ("--text-muted", var (varNamePrimitive (textPrimary m) (ifLight theme S600 S400)));
   ("--text-disabled", var (varNamePrimitive (textPrimary m) (ifLight theme S400 S500)));
   ("--text-inverse", var (varNamePrimitive (textInverse m) (ifLight theme S100 S900)));
   ("--border-default", var (varNamePrimitive (textPrimary m) (ifLight theme S300 S700)));
   ("--border-strong", var (varNamePrimitive (textPrimary m) (ifLight theme S400 S600)));
   ("--border-subtle", var (varNamePrimitive (textPrimary m) (ifLight theme S200 S800)));
   ("--accent", var (varNamePrimitive (accentPrimary m) S500));
   ("--accent-hover", var (varNamePrimitive (accentPrimary m) S600));
   ("--accent-active", var (varNamePrimitive (accentPrimary m) S700));
   ("--accent-inverse", var (varNamePrimitive (accentInverse m) S500));
   ("--link", var (varNamePrimitive (accentPrimary m) S500));
   ("--link-hover", var (varNamePrimitive (accentPrimary m) S600));
   ("--link-active", var (varNamePrimitive (accentPrimary m) S700))].
Proof. reflexivity. Qed.

(** [components[theme]] with every alias read. *)
Lemma componentTokens_table (theme : ThemeName) (m : ThemeMapping) :
  componentTokens (semanticTokens theme m) =
  [("--btn-primary-bg", var (varNamePrimitive (surfaceInverse m) (ifLight theme S900 S100)));
   ("--btn-primary-text", var (varNamePrimitive (textInverse m) (ifLight theme S100 S900)));
   ("--btn-primary-bg-hover", var (varNamePrimitive (accentPrimary m) S600));
   ("--btn-primary-bg-active", var (varNamePrimitive (accentPrimary m) S700));
   ("--btn-primary-bg-disabled", var (varNamePrimitive (surfacePrimary m) (ifLight theme S200 S800)));
   ("--btn-primary-text-disabled", var (varNamePrimitive (textPrimary m) (ifLight theme S400 S500)));
   ("--btn-secondary-bg", "transparent");
   ("--btn-secondary-text", var (varNamePrimitive (textPrimary m) (ifLight theme S900 S100)));
   ("--btn-secondary-border", var (varNamePrimitive (textPrimary m) (ifLight theme S300 S700)));
   ("--btn-secondary-bg-hover", var (varNamePrimitive (surfacePrimary m) (ifLight theme S200 S800)));
   ("--btn-secondary-bg-active", var (varNamePrimitive (surfacePrimary m) (ifLight theme S200 S800)));
   ("--btn-secondary-text-disabled", var (varNamePrimitive (textPrimary m) (ifLight theme S400 S500)));
   ("--btn-secondary-border-disabled", var (varNamePrimitive (textPrimary m) (ifLight theme S200 S800)));
   ("--input-bg", var (varNamePrimitive (surfacePrimary m) (ifLight theme S100 S900)));
   ("--input-text", var (varNamePrimitive (textPrimary m) (ifLight theme S900 S100)));
   ("--input-placeholder", var (varNamePrimitive (textPrimary m) (ifLight theme S600 S400)));
   ("--input-border", var (varNamePrimitive (textPrimary m) (ifLight theme S300 S700)));
   ("--input-border-focus", var (varNamePrimitive (accentPrimary m) S500));
   ("--input-bg-disabled", var (varNamePrimitive (surfacePrimary m) (ifLight theme S200 S800)));
   ("--input-text-disabled", var (varNamePrimitive (textPrimary m) (ifLight theme S400 S500)))].
Proof. reflexivity. Qed.

(** A value of the two layers: a reference to a primitive of one of the
    mapping's slots, wrapped in var(), or (components only) a literal. *)
Local Abbreviation isReference m v :=
  (exists (i : string) (s : RampStep),
     In i (mappingSlots m) /\ v = var (varNamePrimitive i s)).

Lemma semanticTokens_values (theme : ThemeName) (m : ThemeMapping) (k v : string) :
  In (k, v) (semanticTokens theme m) -> isReference m v.
Proof.
  rewrite semanticTokens_table. cbn [In]. intros Hin.
  repeat (destruct Hin as [[= <- <-]|Hin];
          [eexists _, _; split; [|reflexivity]; cbn; tauto|]).
  contradiction.
Qed.

Lemma componentTokens_values (theme : ThemeName) (m : ThemeMapping) (k v : string) :
  In (k, v) (componentTokens (semanticTokens theme m)) ->
  v = "transparent" \/ isReference m v.
Proof.
  rewrite componentTokens_table. cbn [In]. intros Hin.
  repeat (destruct Hin as [[= <- <-]|Hin];
          [first [left; reflexivity
                 |right; eexists _, _; split; [|reflexivity]; cbn; tauto]|]).
  contradiction.
Qed.

Lemma themeBlock_semantic (theme : ThemeName) (sem comp : Obj) (k v : string) :
  In (k, v) sem -> In (varLine k v) (themeBlock theme sem comp).
Proof.
  intros Hin. unfold themeBlock, declarations.
  apply in_or_app. right. apply in_or_app. left.
  apply in_map_iff. exists (k, v). split; [reflexivity|exact Hin].
Qed.

Lemma var_is_not_the_name (name : string) : var name <> name.
Proof.
  unfold var. intros E. apply (f_equal String.length) in E.
  rewrite !append_length in E. cbn [String.length] in E. lia.
Qed.

(** ** buildTokens *)

(** The text of the output, written out: a line feed, a declaration
    [`  ${k}: ${v};`], a reference [`var(--c-${i}-${step})`], the two tables
    of a theme with every assignment carried out and every alias read, and
    the lines of the block of a theme. *)
Local Abbreviation lineFeed := (String "010" EmptyString).
Local Abbreviation doubleQuote := (String "034" EmptyString).
Local Abbreviation declaration k v := ("  " +:+ k +:+ ": " +:+ v +:+ ";").
Local Abbreviation primitiveName i step := ("--c-" +:+ i +:+ "-" +:+ step).
Local Abbreviation reference i step := ("var(" +:+ primitiveName i step +:+ ")").
Local Abbreviation inTheme theme a b :=
  (match theme with light => a | dark => b end).

Local Abbreviation semanticTable theme m :=
  [("--surface-primary", reference (surfacePrimary m) (inTheme theme "100" "900"));
   ("--surface-secondary", reference (surfacePrimary m) (inTheme theme "200" "800"));
   ("--surface-inverse", reference (surfaceInverse m) (inTheme theme "900" "100"));
   ("--text-primary", reference (textPrimary m) (inTheme theme "900" "100"));
   ("--text-secondary", reference (textPrimary m) (inTheme theme "700" "200"));
   ("--text-muted", reference (textPrimary m) (inTheme theme "600" "400"));
   ("--text-disabled", reference (textPrimary m) (inTheme theme "400" "500"));
   ("--text-inverse", reference (textInverse m) (inTheme theme "100" "900"));
   ("--border-default", reference (textPrimary m) (inTheme theme "300" "700"));
   ("--border-strong", reference (textPrimary m) (inTheme theme "400" "600"));
   ("--border-subtle", reference (textPrimary m) (inTheme theme "200" "800"));
   ("--accent", reference (accentPrimary m) "500");
   ("--accent-hover", reference (accentPrimary m) "600");
   ("--accent-active", reference (accentPrimary m) "700");
   ("--accent-inverse", reference (accentInverse m) "500");
   ("--link", reference (accentPrimary m) "500");
   ("--link-hover", reference (accentPrimary m) "600");
   ("--link-active", reference (accentPrimary m) "700")].

Local Abbreviation componentTable theme m :=
  [("--btn-primary-bg", reference (surfaceInverse m) (inTheme theme "900" "100"));
   ("--btn-primary-text", reference (textInverse m) (inTheme theme "100" "900"));
   ("--btn-primary-bg-hover", reference (accentPrimary m) "600");
   ("--btn-primary-bg-active", reference (accentPrimary m) "700");
   ("--btn-primary-bg-disabled", reference (surfacePrimary m) (inTheme theme "200" "800"));
   ("--btn-primary-text-disabled", reference (textPrimary m) (inTheme theme "400" "500"));
   ("--btn-secondary-bg", "transparent");
   ("--btn-secondary-text", reference (textPrimary m) (inTheme theme "900" "100"));
   ("--btn-secondary-border", reference (textPrimary m) (inTheme theme "300" "700"));
   ("--btn-secondary-bg-hover", reference (surfacePrimary m) (inTheme theme "200" "800"));
   ("--btn-secondary-bg-active", reference (surfacePrimary m) (inTheme theme "200" "800"));
   ("--btn-secondary-text-disabled", reference (textPrimary m) (inTheme theme "400" "500"));
   ("--btn-secondary-border-disabled", reference (textPrimary m) (inTheme theme "200" "800"));
   ("--input-bg", reference (surfacePrimary m) (inTheme theme "100" "900"));
   ("--input-text", reference (textPrimary m) (inTheme theme "900" "100"));
   ("--input-placeholder", reference (textPrimary m) (inTheme theme "600" "400"));
   ("--input-border", reference (textPrimary m) (inTheme theme "300" "700"));
   ("--input-border-focus", reference (accentPrimary m) "500");
   ("--input-bg-disabled", reference (surfacePrimary m) (inTheme theme "200" "800"));
   ("--input-text-disabled", reference (textPrimary m) (inTheme theme "400" "500"))].

Local Abbreviation themeLines name sem comp :=
  (["[data-theme=" +:+ doubleQuote +:+ name +:+ doubleQuote +:+ "] {";
    "  /* Semantic tokens */"]
   ++ map (fun kv : string * string => declaration (fst kv) (snd kv)) sem
   ++ [""; "  /* Component tokens */"]
   ++ map (fun kv : string * string => declaration (fst kv) (snd kv)) comp
   ++ ["}"; ""])%list.

(** The component that is no reference, and the others. *)
Lemma componentTokens_entries (theme : ThemeName) (m : ThemeMapping) (k v : string) :
  In (k, v) (componentTokens (semanticTokens theme m)) ->
  (k = "--btn-secondary-bg" /\ v = "transparent")
  \/ (k <> "--btn-secondary-bg"
      /\ exists (i : string) (s : RampStep),
           In i (mappingSlots m) /\ v = var (varNamePrimitive i s)).
Proof.
  rewrite componentTokens_table. cbn [In]. intros Hin.
  repeat (destruct Hin as [[= <- <-]|Hin];
          [first [left; split; reflexivity
                 |right; split; [discriminate|];
                  eexists _, _; split; [|reflexivity]; cbn; tauto]|]).
  contradiction.
Qed.

Lemma objGet_key {V} (o : Entries V) (k : string) (v : V) :
  objGet o k = Some v -> In k (objKeys o).
Proof.
  intros Eq. destruct (In_dec string_dec k (objKeys o)) as [Hin|Hno]; [exact Hin|].
  apply objGet_None in Hno. congruence.
Qed.

Section BuildTokens.
Context {L : Locale}.





(** The keys of the primitives: the names of the palette entries under
    whose id the ramp map holds a ramp of its own or an inherited member. *)
Lemma primitive_keys (palette : list PaletteColor) (ramps : RampMap) (k : string) :
  In k (objKeys (buildPrimitives palette ramps)) <->
  exists (c : PaletteColor) (s : RampStep),
    In c palette
    /\ (is_Some (ramps !! id c) \/ In (id c) objectPrototypeMembers)
    /\ k = varNamePrimitive (id c) s.
Proof.
  split.
  - intros Hk. apply buildPrimitives_keys in Hk as (c & s & Hin & Hf & ->).
    exists c, s. split; [exact Hin|]. split; [apply rampOf_found; exact Hf|reflexivity].
  - intros (c & s & Hin & Hf & ->). apply rampOf_found in Hf.
    exact (objGet_key _ _ _ (buildPrimitives_get ramps palette c s Hin Hf)).
Qed.

(** C1 (amended): json.themes[theme] and json.components[theme] are the
    very objects whose entries the CSS prints.  Each of their values is
    the text of its CSS declaration: a reference var(--c-<id>-<step>) to a
    primitive of one of the theme's mapping slots, never the bare name,
    but for --btn-secondary-bg, which is the literal transparent. *)
Theorem json_values_are_css_values (palette : list PaletteColor)
    (ramps : RampMap) (mapping : PerTheme ThemeMapping) (theme : ThemeName) :
  let b := buildTokens palette ramps mapping in
  let m := atTheme mapping theme in
  let sem := atTheme (themes (json b)) theme in
  let comp := atTheme (components (json b)) theme in
  sem = semanticTable theme m
  /\ comp = componentTable theme m
  /\ objGet comp "--btn-secondary-bg" = Some "transparent"
  /\ (forall k v : string, In (k, v) sem ->
        exists (i : string) (s : RampStep),
          In i (mappingSlots m)
          /\ v = reference i (stepToString s)
          /\ v <> primitiveName i (stepToString s))
  /\ (forall k v : string, In (k, v) comp ->
        (k = "--btn-secondary-bg" /\ v = "transparent")
        \/ (k <> "--btn-secondary-bg"
            /\ exists (i : string) (s : RampStep),
                 In i (mappingSlots m)
                 /\ v = reference i (stepToString s)
                 /\ v <> primitiveName i (stepToString s)))
  /\ exists before after : list string,
       css b = String.concat lineFeed
                 (before
                  ++ themeLines (inTheme theme "light" "dark") sem comp
                  ++ after)%list.
Proof.
  intros b m sem comp.
  assert (sem = semanticTokens theme m) as Esem by (destruct theme; reflexivity).
  assert (comp = componentTokens (semanticTokens theme m)) as Ecomp
    by (destruct theme; reflexivity).
  split; [destruct theme; reflexivity|]. split; [destruct theme; reflexivity|].
  split; [destruct theme; reflexivity|]. split; [|split].
  - intros k v Hin. rewrite Esem in Hin.
    destruct (semanticTokens_values _ _ _ _ Hin) as (i & s & Hi & ->).
    exists i, s. split; [exact Hi|]. split; [reflexivity|].
    exact (var_is_not_the_name (varNamePrimitive i s)).
  - intros k v Hin. rewrite Ecomp in Hin.
    destruct (componentTokens_entries _ _ _ _ Hin) as [Hlit|(Hk & i & s & Hi & ->)];
      [left; exact Hlit|].
    right. split; [exact Hk|]. exists i, s. split; [exact Hi|].
    split; [reflexivity|]. exact (var_is_not_the_name (varNamePrimitive i s)).
  - destruct theme.
    + exists (rootBlock (primitives (json b))),
             (themeBlock dark (ofDark (themes (json b))) (ofDark (components (json b)))).
      reflexivity.
    + exists (rootBlock (primitives (json b))
              ++ themeBlock light (ofLight (themes (json b)))
                   (ofLight (components (json b))))%list, [].
      rewrite app_nil_r, <- app_assoc. reflexivity.
Qed.

(** C2 (amended): buildTokens checks no reference.  When a slot of a
    theme's mapping names an id that has no ramp in the ramp map (and is
    not the name of a member that every object inherits), the bundle is
    returned all the same: the theme declares a token whose value is
    var(--c-<id>-<step>), the CSS prints that declaration, and the
    primitives have no entry of that name. *)
Theorem missing_ramp_leaves_dangling_reference (palette : list PaletteColor)
    (ramps : RampMap) (mapping : PerTheme ThemeMapping) (theme : ThemeName)
    (i : string) :
  In i (mappingSlots (atTheme mapping theme)) ->
  ramps !! i = None ->
  ~ In i objectPrototypeMembers ->
  let b := buildTokens palette ramps mapping in
  let sem := atTheme (themes (json b)) theme in
  let comp := atTheme (components (json b)) theme in
  exists (k : string) (s : RampStep),
    In (k, reference i (stepToString s)) sem
    /\ (exists before after : list string,
          css b = String.concat lineFeed
                    (before ++ [declaration k (reference i (stepToString s))]
                     ++ after)%list)
    /\ objGet (primitives (json b)) (primitiveName i (stepToString s)) = None
    /\ forall s' : RampStep,
         ~ In (primitiveName i (stepToString s')) (objKeys (primitives (json b))).
Proof.
  intros Hi Hown Hplain b sem comp.
  pose proof (rampOf_not_found ramps i Hown Hplain) as Hnone.
  assert (sem = semanticTokens theme (atTheme mapping theme)) as Esem
    by (destruct theme; reflexivity).
  assert (exists k s, In (k, var (varNamePrimitive i s)) sem) as (k & s & Hin).
  { rewrite Esem, semanticTokens_table. cbn [mappingSlots In] in Hi.
    destruct Hi as [<-|[<-|[<-|[<-|[<-|[<-|[]]]]]]];
      eexists _, _; cbn [In]; eauto 20. }
  exists k, s. split; [exact Hin|]. split; [|split].
  - assert (In (varLine k (var (varNamePrimitive i s))) (themeBlock theme sem comp))
      as Hline by (apply themeBlock_semantic; exact Hin).
    assert (In (varLine k (var (varNamePrimitive i s)))
              (tokenLines (primitives (json b)) (themes (json b)) (components (json b))))
      as Hlines.
    { unfold tokenLines. apply in_or_app. right. apply in_or_app.
      destruct theme; [left|right]; exact Hline. }
    apply in_split in Hlines as (before & after & Elines).
    exists before, after. change (css b) with
      (String.concat lineFeed
         (tokenLines (primitives (json b)) (themes (json b)) (components (json b)))).
    rewrite Elines. reflexivity.
  - exact (buildPrimitives_not_found ramps palette i s Hnone).
  - intros s'. apply objGet_None.
    exact (buildPrimitives_not_found ramps palette i s' Hnone).
Qed.

(** C5: --text-primary refers to step 900 of the textPrimary slot in the
    light theme and to step 100 of it in the dark theme, two different
    references for one id; the primitives are computed from the palette and
    the ramps alone, one map for both themes, whatever the mapping. *)
Theorem theme_symmetry (palette : list PaletteColor) (ramps : RampMap)
    (mapping : PerTheme ThemeMapping) :
  let b := buildTokens palette ramps mapping in
  objGet (atTheme (themes (json b)) light) "--text-primary"
  = Some (var (varNamePrimitive (textPrimary (atTheme mapping light)) S900))
  /\ objGet (atTheme (themes (json b)) dark) "--text-primary"
     = Some (var (varNamePrimitive (textPrimary (atTheme mapping dark)) S100))
  /\ (forall i : string,
        var (varNamePrimitive i S900) <> var (varNamePrimitive i S100))
  /\ primitives (json b) = buildPrimitives palette ramps
  /\ (forall mapping' : PerTheme ThemeMapping,
        let b' := buildTokens palette ramps mapping' in
        primitives (json b') = primitives (json b)
        /\ rootBlock (primitives (json b')) = rootBlock (primitives (json b)))
  /\ exists rest : list string,
       css b = join newline (rootBlock (buildPrimitives palette ramps) ++ rest)%list.
Proof.
  intros b. split; [reflexivity|]. split; [reflexivity|]. split.
  - intros i Eq. unfold var in Eq. apply append_inj_prefix in Eq.
    apply append_inj_suffix in Eq as [Eq _]; [|reflexivity].
    apply varNamePrimitive_inj in Eq as [_ Eq]. discriminate Eq.
  - split; [reflexivity|]. split; [intros mapping'; split; reflexivity|].
    eexists. reflexivity.
Qed.


End BuildTokens.

(** ** The code run on the sample implementations *)

Import samples.





(** C1, as stated, fails: in the JSON of a two-colour palette the value of
    --text-primary in the light theme is the text var(--c-ink-900), the
    name of the primitive wrapped in var(), and not the name --c-ink-900;
    the component that aliases it carries the same text. *)
Lemma json_text_primary_keeps_var_wrapping :
  objGet (ofLight (themes (json (buildTokens (L := collation) palette2 ramps2 mapping2))))
         "--text-primary"
  = Some (var (varNamePrimitive "ink" S900))
  /\ var (varNamePrimitive "ink" S900) = "var(--c-ink-900)"
  /\ objGet (ofLight (themes (json (buildTokens (L := collation) palette2 ramps2 mapping2))))
            "--text-primary"
     <> Some (varNamePrimitive "ink" S900)
  /\ objGet (ofLight (components (json (buildTokens (L := collation) palette2 ramps2 mapping2))))
            "--input-text"
     = Some "var(--c-ink-900)".
Proof.
  split; [reflexivity|]. split; [reflexivity|]. split; [|reflexivity].
  vm_compute. intros Eq. discriminate Eq.
Qed.

(** C2, as stated, fails: with the dark textPrimary slot set to an id that
    has no ramp, buildTokens returns a bundle; its CSS contains the
    reference var(--c-ghost-100), and neither the primitives nor the text
    of the CSS declare --c-ghost-100. *)
Lemma ghost_reference_is_emitted :
  ramps2 !! "ghost" = None
  /\ objGet (ofDark (themes (json (buildTokens (L := collation) palette2 ramps2 mappingGhost))))
            "--text-primary"
     = Some "var(--c-ghost-100)"
  /\ String.index 0 "var(--c-ghost-100)"
       (css (buildTokens (L := collation) palette2 ramps2 mappingGhost))
     = Some 2226%nat
  /\ objGet (primitives (json (buildTokens (L := collation) palette2 ramps2 mappingGhost)))
            "--c-ghost-100"
     = None
  /\ String.index 0 "--c-ghost-100:"
       (css (buildTokens (L := collation) palette2 ramps2 mappingGhost))
     = None.
Proof. repeat split; vm_compute; reflexivity. Qed.


(** C9: a palette entry that has no ramp is not skipped when its id is the
    name of a member that every object inherits.  With the one entry
    constructor and an empty ramp map, [ramps[c.id]] is the inherited
    function, the check [if (!ramp)] lets it pass, and nine primitives are
    written, each with the value undefined; the palette without the entry
    has none. *)
Theorem constructor_entry_is_not_skipped :
  (∅ : RampMap) !! "constructor" = None
  /\ primitives (json (buildTokens (L := collation) paletteConstructor ∅ mapping2))
     = [("--c-constructor-100", Undefined); ("--c-constructor-200", Undefined);
        ("--c-constructor-300", Undefined); ("--c-constructor-400", Undefined);
        ("--c-constructor-500", Undefined); ("--c-constructor-600", Undefined);
        ("--c-constructor-700", Undefined); ("--c-constructor-800", Undefined);
        ("--c-constructor-900", Undefined)]
  /\ rootBlock (L := collation) (buildPrimitives paletteConstructor ∅)
     = [":root {"; "  /* Primitive ramps */";
        "  --c-constructor-100: undefined;"; "  --c-constructor-200: undefined;";
        "  --c-constructor-300: undefined;"; "  --c-constructor-400: undefined;";
        "  --c-constructor-500: undefined;"; "  --c-constructor-600: undefined;";
        "  --c-constructor-700: undefined;"; "  --c-constructor-800: undefined;";
        "  --c-constructor-900: undefined;"; "}"; ""]
  /\ primitives (json (buildTokens (L := collation) [] ∅ mapping2)) = [].
Proof. repeat split; vm_compute; reflexivity. Qed.

(** The base colour "#1c2e7a" on the sample implementations: either call
    of generateRamp9 ends in the TypeError of clampGamut, while
    normalizeHex returns the colour as it is. *)
Example generateRamp9_deep_blue :
  generateRamp9 (K := hexCulori) (E := v8) 3 "#1c2e7a" figma
  = Throw "Cannot destructure property 'gamut' of 'getMode(...)' as it is undefined."
  /\ generateRamp9 (K := hexCulori) (E := v8) 3 "#1c2e7a" even
     = Throw "Cannot destructure property 'gamut' of 'getMode(...)' as it is undefined."
  /\ normalizeHex (K := hexCulori) 3 "#1c2e7a" = Return "#1c2e7a".
Proof. repeat split; vm_compute; reflexivity. Qed.

(** The rows of a page with two valid colours: each is computed into a
    row with the message of the TypeError, and there is no bundle. *)
Example page_of_two_colours :
  page.computed (K := hexCulori) (E := v8) 3 figma rows2
  = Return
      [page.mkRow "sky" "Sky" "#36F" None
         (Some "Cannot destructure property 'gamut' of 'getMode(...)' as it is undefined.");
       page.mkRow "ink" "Ink" " #111111" None
         (Some "Cannot destructure property 'gamut' of 'getMode(...)' as it is undefined.")]
  /\ page.computed (K := hexCulori) (E := v8) 3 figma rowsBad
     = Return
         [page.mkRow "sky" "Sky" "#36F" None
            (Some "Cannot destructure property 'gamut' of 'getMode(...)' as it is undefined.");
          page.mkRow "fog" "Fog" "oops" None (Some "Invalid hex")]
  /\ page.tokenBundle (K := hexCulori) (E := v8) (L := collation) 3 figma rows2 mapping2
     = Return None.
Proof. repeat split; vm_compute; reflexivity. Qed.

(** C8 at "AbC", which culori has to parse first. *)
Lemma normalizeHex_idempotent_witness :
  normalizeHex (K := hexCulori) 2 "AbC" = Return "#aabbcc"
  /\ normalizeHex (K := hexCulori) 2 "#aabbcc" = Return "#aabbcc"
  /\ testHashDigits isLowerHexDigit 6 "#aabbcc" = true.
Proof.
  assert (normalizeHex (K := hexCulori) 2 "AbC" = Return "#aabbcc") as Eq
    by (vm_compute; reflexivity).
  split; [exact Eq|].
  pose proof (normalizeHex_idempotent 2 "AbC" "#aabbcc" Eq) as (Hidem & Hhex & _).
  split; [exact Hidem|exact Hhex].
Defined.

(** C2 (amended) at the mapping with the ghost slot. *)
Lemma missing_ramp_witness :
  In "ghost" (mappingSlots (atTheme mappingGhost dark))
  /\ ramps2 !! "ghost" = None
  /\ ~ In "ghost" objectPrototypeMembers
  /\ exists (k : string) (s : RampStep),
       In (k, var (varNamePrimitive "ghost" s))
          (atTheme (themes (json (buildTokens (L := collation) palette2 ramps2 mappingGhost))) dark)
       /\ objGet (primitives (json (buildTokens (L := collation) palette2 ramps2 mappingGhost)))
                 (varNamePrimitive "ghost" s) = None.
Proof.
  assert (In "ghost" (mappingSlots (atTheme mappingGhost dark))) as Hin
    by (cbn; tauto).
  assert (ramps2 !! "ghost" = None) as Hnone by (vm_compute; reflexivity).
  assert (~ In "ghost" objectPrototypeMembers) as Hplain.
  { cbn. intros H. repeat (destruct H as [H|H]; [discriminate H|]). exact H. }
  split; [exact Hin|]. split; [exact Hnone|]. split; [exact Hplain|].
  destruct (missing_ramp_leaves_dangling_reference (L := collation)
              palette2 ramps2 mappingGhost dark "ghost" Hin Hnone Hplain)
    as (k & s & Hsem & _ & Hprim & _).
  exists k, s. split; [exact Hsem|exact Hprim].
Defined.


(** * Further properties of ramp.ts *)

(** ** Validation and normalization together *)

Lemma lowerChar_whiteSpace (a : ascii) :
  isWhiteSpace (lowerChar a) = isWhiteSpace a.
Proof. destruct a as [[] [] [] [] [] [] [] []]; vm_compute; reflexivity. Qed.

Lemma lowerChar_idempotent (a : ascii) : lowerChar (lowerChar a) = lowerChar a.
Proof. destruct a as [[] [] [] [] [] [] [] []]; vm_compute; reflexivity. Qed.

Lemma toLowerCase_idempotent (s : string) :
  toLowerCase (toLowerCase s) = toLowerCase s.
Proof.
  induction s as [|a r IH]; cbn [toLowerCase]; [reflexivity|].
  rewrite lowerChar_idempotent, IH. reflexivity.
Qed.

Lemma toLowerCase_length (s : string) :
  String.length (toLowerCase s) = String.length s.
Proof. induction s as [|a r IH]; cbn; [reflexivity|]. rewrite IH. reflexivity. Qed.

Lemma toLowerCase_trimStart (s : string) :
  toLowerCase (trimStart s) = trimStart (toLowerCase s).
Proof.
  induction s as [|a r IH]; cbn [trimStart toLowerCase]; [reflexivity|].
  rewrite lowerChar_whiteSpace. destruct (isWhiteSpace a); [exact IH|reflexivity].
Qed.

Lemma toLowerCase_trimEnd (s : string) :
  toLowerCase (trimEnd s) = trimEnd (toLowerCase s).
Proof.
  induction s as [|a r IH]; cbn [trimEnd toLowerCase]; [reflexivity|].
  rewrite <- IH, lowerChar_whiteSpace.
  destruct (trimEnd r) as [|b r']; cbn [toLowerCase]; [|reflexivity].
  destruct (isWhiteSpace a); reflexivity.
Qed.

Lemma toLowerCase_trim (s : string) : toLowerCase (trim s) = trim (toLowerCase s).
Proof. unfold trim. rewrite toLowerCase_trimEnd, toLowerCase_trimStart. reflexivity. Qed.

(** What trimStart returns is empty or starts with a visible character. *)
Lemma trimStart_head (s : string) :
  match trimStart s with
  | EmptyString => True
  | String a _ => isWhiteSpace a = false
  end.
Proof.
  induction s as [|a r IH]; cbn [trimStart]; [exact I|].
  destruct (isWhiteSpace a) eqn:E; [exact IH|exact E].
Qed.

Lemma trimEnd_cons (a : ascii) (r : string) :
  trimEnd (String a r)
  = match trimEnd r with
    | EmptyString => if isWhiteSpace a then EmptyString else String a EmptyString
    | String b r' => String a (String b r')
    end.
Proof. reflexivity. Qed.

Lemma trimEnd_idempotent (s : string) : trimEnd (trimEnd s) = trimEnd s.
Proof.
  induction s as [|a r IH]; [reflexivity|].
  rewrite (trimEnd_cons a r).
  destruct (trimEnd r) as [|b r'] eqn:E.
  - destruct (isWhiteSpace a) eqn:Ea; [reflexivity|].
    rewrite trimEnd_cons. cbn [trimEnd]. rewrite Ea. reflexivity.
  - rewrite trimEnd_cons, IH. reflexivity.
Qed.

Lemma trim_idempotent (s : string) : trim (trim s) = trim s.
Proof.
  unfold trim. pose proof (trimStart_head s) as Hhead.
  destruct (trimStart s) as [|a r]; [reflexivity|].
  assert (trimStart (trimEnd (String a r)) = trimEnd (String a r)) as ->.
  { rewrite trimEnd_cons. destruct (trimEnd r); rewrite ?Hhead; cbn [trimStart];
      rewrite Hhead; reflexivity. }
  apply trimEnd_idempotent.
Qed.

Lemma allChars_toLowerCase_hex (r : string) :
  allChars isHexDigit r = true -> allChars isLowerHexDigit (toLowerCase r) = true.
Proof.
  induction r as [|a r IH]; cbn [allChars toLowerCase]; [reflexivity|].
  intros E. apply andb_prop in E as [Ea Er].
  destruct (hexDigit_lower a Ea) as [_ ->]. rewrite (IH Er). reflexivity.
Qed.

Lemma allChars_weaken (p q : ascii -> bool) (r : string) :
  (forall a, p a = true -> q a = true) ->
  allChars p r = true -> allChars q r = true.
Proof.
  intros Hpq. induction r as [|a r IH]; cbn [allChars]; [reflexivity|].
  intros E. apply andb_prop in E as [Ea Er].
  rewrite (Hpq a Ea), (IH Er). reflexivity.
Qed.

Lemma testHashDigits_inv (p : ascii -> bool) (n : nat) (s : string) :
  testHashDigits p n s = true ->
  exists r, s = String "#" r /\ String.length r = n /\ allChars p r = true.
Proof.
  unfold testHashDigits. destruct s as [|x r]; [discriminate|].
  destruct (Ascii.eqb_spec x "#") as [->|Hne].
  - intros E. apply andb_prop in E as [El Ep]. apply Nat.eqb_eq in El. eauto.
  - intros E. exfalso.
    destruct x as [[] [] [] [] [] [] [] []]; first [discriminate E | apply Hne; reflexivity].
Qed.

Lemma testHashDigits_intro (p : ascii -> bool) (r : string) :
  allChars p r = true -> testHashDigits p (String.length r) (String "#" r) = true.
Proof. intros E. cbn [testHashDigits]. rewrite Nat.eqb_refl, E. reflexivity. Qed.

(** A string of the upper or lower case pattern, put in lower case,
    matches the lower case pattern. *)
Lemma testHashDigits_toLowerCase (n : nat) (s : string) :
  testHashDigits isHexDigit n s = true ->
  testHashDigits isLowerHexDigit n (toLowerCase s) = true.
Proof.
  intros E. apply testHashDigits_inv in E as (r & -> & <- & Ep).
  cbn [toLowerCase]. change (lowerChar "#") with "#"%char.
  rewrite <- (toLowerCase_length r).
  apply testHashDigits_intro. apply allChars_toLowerCase_hex. exact Ep.
Qed.

Lemma lowerHexDigit_hexDigit (a : ascii) :
  isLowerHexDigit a = true -> isHexDigit a = true.
Proof. unfold isHexDigit. intros ->. reflexivity. Qed.

(** X1: a string that isValidHex accepts is normalized without asking
    culori anything: normalizeHex returns, with any fuel and for every
    implementation of culori the same canonical string. *)
Theorem valid_hex_normalizes (x : string) :
  isValidHex x = true ->
  exists y : string,
    testHashDigits isLowerHexDigit 6 y = true
    /\ forall (num : Type) (K : Culori num) (fuel : nat),
         normalizeHex (S fuel) x = Return y.
Proof.
  unfold isValidHex. intros E. apply orb_prop in E as [E|E].
  - apply testHashDigits_toLowerCase in E. rewrite toLowerCase_trim in E.
    exists (toLowerCase (trim x)). rewrite toLowerCase_trim.
    split; [exact E|]. intros num K fuel. cbn [normalizeHex].
    rewrite toLowerCase_trim, E.
    destruct (testHashDigits isLowerHexDigit 3 _) eqn:E3; [|reflexivity].
    apply testHashDigits_length in E3. apply testHashDigits_length in E. congruence.
  - apply testHashDigits_toLowerCase in E.
    pose proof E as E3.
    apply testHashDigits_3_inv in E as (a & b & c & Eh & Ea & Eb & Ec).
    exists (String "#" (String a (String a (String b (String b
             (String c (String c EmptyString))))))).
    split; [cbn; rewrite Ea, Eb, Ec; reflexivity|].
    intros num K fuel. cbn [normalizeHex]. rewrite E3, Eh. reflexivity.
Qed.

Section NormalizeHexMore.
Context {num : Type} {K : Culori num}.

(** X2: what normalizeHex returns passes isValidHex. *)
Theorem normalized_is_valid (fuel : nat) (x y : string) :
  normalizeHex fuel x = Return y -> isValidHex y = true.
Proof.
  intros E. apply normalizeHex_result in E.
  unfold isValidHex.
  assert (trim y = y) as ->.
  { pose proof (trim_lower_hashDigits 6 y E) as Ht.
    apply testHashDigits_inv in E as (r & -> & _ & Er).
    unfold trim in *. cbn [trimStart] in *. change (isWhiteSpace "#") with false in *.
    cbv iota in *. cbn [trimEnd]. rewrite (trimEnd_lowerHex r Er).
    destruct r; reflexivity. }
  apply testHashDigits_inv in E as (r & -> & <- & Er).
  rewrite testHashDigits_intro; [reflexivity|].
  exact (allChars_weaken _ _ r lowerHexDigit_hexDigit Er).
Qed.

(** X3: normalizeHex does not see the case of its input nor the white
    space around it. *)
Theorem normalizeHex_ignores_case_and_padding (fuel : nat) (x : string) :
  normalizeHex fuel (toLowerCase (trim x)) = normalizeHex fuel x
  /\ normalizeHex fuel (trim x) = normalizeHex fuel x
  /\ normalizeHex fuel (toLowerCase x) = normalizeHex fuel x.
Proof.
  destruct fuel as [|fuel]; [repeat split; reflexivity|].
  cbn [normalizeHex].
  assert (toLowerCase (trim (toLowerCase (trim x))) = toLowerCase (trim x)) as ->
    by (rewrite <- (toLowerCase_trim (trim x)), toLowerCase_idempotent,
          trim_idempotent; reflexivity).
  rewrite trim_idempotent.
  assert (toLowerCase (trim (toLowerCase x)) = toLowerCase (trim x)) as ->
    by (rewrite <- (toLowerCase_trim x), toLowerCase_idempotent; reflexivity).
  repeat split; reflexivity.
Qed.

Lemma normalizeHex_Throw (fuel : nat) (x msg : string) :
  normalizeHex fuel x = Throw msg -> msg = "Invalid hex".
Proof.
  revert x. induction fuel as [|fuel IH]; intros x; cbn [normalizeHex];
    [discriminate|].
  destruct (testHashDigits isLowerHexDigit 3 _); [discriminate|].
  destruct (testHashDigits isLowerHexDigit 6 _); [discriminate|].
  destruct (parse _) as [p|]; cbn [orThrow obind]; [|intros [= <-]; reflexivity].
  destruct (formatHex p) as [formatted|]; cbn [orThrow obind];
    [apply IH|intros [= <-]; reflexivity].
Qed.

(** X4: the only error normalizeHex raises is "Invalid hex", and it raises
    it as soon as the trimmed, lower-case input matches neither pattern and
    culori cannot parse it. *)
Theorem normalizeHex_errors (fuel : nat) (x : string) :
  (forall msg : string, normalizeHex fuel x = Throw msg -> msg = "Invalid hex")
  /\ (testHashDigits isLowerHexDigit 3 (toLowerCase (trim x)) = false ->
      testHashDigits isLowerHexDigit 6 (toLowerCase (trim x)) = false ->
      parse (toLowerCase (trim x)) = None ->
      normalizeHex (S fuel) x = Throw "Invalid hex").
Proof.
  split.
  - intros msg. apply normalizeHex_Throw.
  - intros E3 E6 Ep. cbn [normalizeHex]. rewrite E3, E6, Ep. reflexivity.
Qed.

End NormalizeHexMore.

(** * Further properties of tokens.ts *)

(** X11: two primitives bear the same name only if they are the same step
    of the same id, whatever characters the ids contain; and a primitive
    name is never a reference var(...) to itself. *)
Theorem primitive_names_are_injective (i i' : string) (s s' : RampStep) :
  (varNamePrimitive i s = varNamePrimitive i' s' <-> i = i' /\ s = s')
  /\ (var (varNamePrimitive i s) = var (varNamePrimitive i' s') <-> i = i' /\ s = s')
  /\ String.length (varNamePrimitive i s) = (String.length i + 8)%nat.
Proof.
  split; [|split].
  - split; [apply varNamePrimitive_inj|intros [-> ->]; reflexivity].
  - split; [|intros [-> ->]; reflexivity].
    unfold var. intros E. apply append_inj_prefix in E.
    apply append_inj_suffix in E as [E _]; [|reflexivity].
    exact (varNamePrimitive_inj _ _ _ _ E).
  - unfold varNamePrimitive. rewrite !append_length.
    destruct s; cbn [String.length stepToString]; lia.
Qed.

Section PrimitivesMore.
Variable ramps : RampMap.

(** X12: every palette entry that has a ramp finds its nine primitives in
    the result, each with the colour of the ramp at that step, also when
    ids repeat in the palette.  An entry without a ramp whose id is the
    name of a member that every object inherits finds nine primitives
    too, each undefined.  The keys of the primitives are the names of
    these entries and no others. *)
Theorem primitives_of_palette (palette : list PaletteColor) :
  (forall (c : PaletteColor) (ramp : Ramp) (s : RampStep),
     In c palette -> ramps !! id c = Some ramp ->
     objGet (buildPrimitives palette ramps) (varNamePrimitive (id c) s)
     = Some (Text (ramp s)))
  /\ (forall (c : PaletteColor) (s : RampStep),
        In c palette -> ramps !! id c = None -> In (id c) objectPrototypeMembers ->
        objGet (buildPrimitives palette ramps) (varNamePrimitive (id c) s)
        = Some Undefined)
  /\ (forall k : string,
        In k (objKeys (buildPrimitives palette ramps)) <->
        exists (c : PaletteColor) (s : RampStep),
          In c palette
          /\ (is_Some (ramps !! id c) \/ In (id c) objectPrototypeMembers)
          /\ k = varNamePrimitive (id c) s).
Proof.
  split; [|split].
  - intros c ramp s. apply buildPrimitives_get_own.
  - intros c s Hin Hr Hm.
    pose proof (rampOf_inherited ramps _ Hr Hm) as Hf.
    rewrite (buildPrimitives_get ramps palette c s Hin); rewrite Hf;
      [reflexivity|discriminate].
  - intros k. apply primitive_keys.
Qed.

(** X13: a palette entry that repeats the id of an earlier entry changes
    nothing: the bundle is that of the palette without it. *)
Theorem repeated_id_adds_nothing {L : Locale} (before after : list PaletteColor)
    (c c' : PaletteColor) (mapping : PerTheme ThemeMapping) :
  In c' before -> id c' = id c ->
  buildPrimitives (before ++ c :: after) ramps = buildPrimitives (before ++ after) ramps
  /\ buildTokens (before ++ c :: after) ramps mapping
     = buildTokens (before ++ after) ramps mapping.
Proof.
  intros Hin Hid.
  pose proof (buildPrimitives_repeat ramps before after c c' Hin Hid) as Eq.
  split; [exact Eq|]. unfold buildTokens. rewrite Eq. reflexivity.
Qed.

(** X14: when every slot of both mappings names a palette entry that has a
    ramp, every value of the semantic and component objects, the literal
    transparent apart, is var(name) for a name that the primitives
    define, with the colour of that ramp step. *)
Theorem references_resolve {L : Locale} (palette : list PaletteColor)
    (mapping : PerTheme ThemeMapping) :
  (forall (theme : ThemeName) (i : string),
     In i (mappingSlots (atTheme mapping theme)) ->
     exists c : PaletteColor, In c palette /\ id c = i /\ is_Some (ramps !! i)) ->
  forall (theme : ThemeName) (k v : string),
    In (k, v) (atTheme (themes (json (buildTokens palette ramps mapping))) theme)
    \/ In (k, v) (atTheme (components (json (buildTokens palette ramps mapping))) theme) ->
    v = "transparent"
    \/ exists (i : string) (s : RampStep) (ramp : Ramp),
         v = var (varNamePrimitive i s)
         /\ ramps !! i = Some ramp
         /\ objGet (primitives (json (buildTokens palette ramps mapping)))
                   (varNamePrimitive i s) = Some (Text (ramp s)).
Proof.
  intros Hslots theme k v Hin.
  assert (v = "transparent"
          \/ exists i s, In i (mappingSlots (atTheme mapping theme))
                         /\ v = var (varNamePrimitive i s)) as [->|(i & s & Hi & ->)].
  { destruct Hin as [Hin|Hin].
    - right. destruct theme; exact (semanticTokens_values _ _ _ _ Hin).
    - destruct theme; exact (componentTokens_values _ _ _ _ Hin). }
  - left. reflexivity.
  - right. destruct (Hslots theme i Hi) as (c & Hc & <- & [ramp Hr]).
    exists (id c), s, ramp. split; [reflexivity|]. split; [exact Hr|].
    cbn [buildTokens json primitives].
    exact (buildPrimitives_get_own ramps palette c ramp s Hc Hr).
Qed.

(** X21: a palette entry whose id has no ramp and is not the name of a
    member that every object inherits is passed over.  Wherever it stands
    in the palette, the primitives, and the whole bundle, are those of the
    palette without it, and no primitive bears its id. *)
Theorem plain_entry_without_ramp_is_skipped {L : Locale}
    (before after : list PaletteColor) (c : PaletteColor)
    (mapping : PerTheme ThemeMapping) :
  ramps !! id c = None ->
  ~ In (id c) objectPrototypeMembers ->
  buildPrimitives (before ++ c :: after) ramps = buildPrimitives (before ++ after) ramps
  /\ buildTokens (before ++ c :: after) ramps mapping
     = buildTokens (before ++ after) ramps mapping
  /\ forall s : RampStep,
       objGet (primitives (json (buildTokens (before ++ c :: after) ramps mapping)))
              (varNamePrimitive (id c) s) = None.
Proof.
  intros Hr Hm. pose proof (rampOf_not_found ramps _ Hr Hm) as Hnone.
  pose proof (buildPrimitives_skip ramps before after c Hnone) as Eq.
  split; [exact Eq|]. split.
  - unfold buildTokens. rewrite Eq. reflexivity.
  - intros s. cbn [buildTokens json primitives].
    apply buildPrimitives_not_found. exact Hnone.
Qed.

End PrimitivesMore.

(** ** slugifyId *)

Lemma slugChar_plain (a : ascii) :
  isSlugChar a = true ->
  isDash a = false /\ isWhiteSpace a = false /\ lowerChar a = a.
Proof.
  destruct a as [[] [] [] [] [] [] [] []]; vm_compute; intros E;
    first [discriminate E | repeat split; reflexivity].
Qed.

Lemma dash_plain (a : ascii) :
  isDash a = true ->
  a = "-"%char /\ isSlugChar a = false /\ isWhiteSpace a = false /\ lowerChar a = a.
Proof.
  destruct a as [[] [] [] [] [] [] [] []]; vm_compute; intros E;
    first [discriminate E | repeat split; reflexivity].
Qed.

Lemma stripEnd_cons (a : ascii) (r : string) :
  stripEnd (String a r)
  = match stripEnd r with
    | EmptyString => if isDash a then EmptyString else String a EmptyString
    | String b r' => String a (String b r')
    end.
Proof. reflexivity. Qed.

Lemma stripEnd_cons_other (a : ascii) (r : string) :
  isDash a = false -> stripEnd (String a r) = String a (stripEnd r).
Proof. intros E. rewrite stripEnd_cons, E. destruct (stripEnd r); reflexivity. Qed.

Lemma replaceRuns_dashSeparated (s : string) (inRun : bool) :
  dashSeparated inRun (replaceRuns inRun s) = true.
Proof.
  revert inRun. induction s as [|a r IH]; intros inRun; cbn [replaceRuns];
    [reflexivity|].
  destruct (isSlugChar a) eqn:Ea.
  - cbn [dashSeparated]. rewrite Ea. apply IH.
  - destruct inRun; [apply IH|].
    cbn [dashSeparated]. change (isSlugChar "-") with false.
    change (isDash "-") with true. cbn [andb negb]. apply IH.
Qed.

Lemma stripStart_dashSeparated (u : string) :
  dashSeparated true u = true -> stripStart u = u.
Proof.
  destruct u as [|a r]; [reflexivity|]. cbn [dashSeparated stripStart].
  destruct (isSlugChar a) eqn:Ea.
  - destruct (slugChar_plain a Ea) as [-> _]. reflexivity.
  - rewrite andb_false_r. cbn [andb]. discriminate.
Qed.

(** Without the dashes at the start, the runs are replaced as if the
    string began inside a run. *)
Lemma stripStart_replaceRuns (s : string) :
  stripStart (replaceRuns false s) = replaceRuns true s.
Proof.
  destruct s as [|a r]; [reflexivity|]. cbn [replaceRuns].
  destruct (isSlugChar a) eqn:Ea.
  - cbn [stripStart]. destruct (slugChar_plain a Ea) as [-> _]. reflexivity.
  - cbn [stripStart]. change (isDash "-") with true. cbv iota.
    apply stripStart_dashSeparated. apply replaceRuns_dashSeparated.
Qed.

Lemma stripEnd_shape (r : string) :
  (dashSeparated false r = true -> slugTail (stripEnd r) = true)
  /\ (dashSeparated true r = true -> isSlug (stripEnd r) = true).
Proof.
  induction r as [|a r IH]; [split; reflexivity|].
  destruct IH as [IH1 IH2]. cbn [dashSeparated].
  destruct (isSlugChar a) eqn:Ea.
  - destruct (slugChar_plain a Ea) as [Hd _].
    rewrite (stripEnd_cons_other a r Hd). cbn [slugTail isSlug]. rewrite Ea.
    split; intros E; rewrite (IH1 E); reflexivity.
  - split; [|rewrite andb_false_r; cbn [andb]; discriminate].
    intros E. apply andb_prop in E as [E Er]. apply andb_prop in E as [Ed _].
    specialize (IH2 Er). rewrite stripEnd_cons, Ed.
    destruct (stripEnd r) as [|b x]; [reflexivity|].
    cbn [slugTail]. rewrite Ea, Ed. exact IH2.
Qed.

Lemma slug_fixed_by_replaceRuns (r : string) :
  (slugTail r = true -> replaceRuns false r = r /\ stripEnd r = r)
  /\ (isSlug r = true -> replaceRuns true r = r /\ stripEnd r = r).
Proof.
  induction r as [|a r IH]; [repeat split; reflexivity|].
  destruct IH as [IH1 IH2]. cbn [slugTail isSlug replaceRuns].
  destruct (isSlugChar a) eqn:Ea.
  - destruct (slugChar_plain a Ea) as [Hd _].
    rewrite (stripEnd_cons_other a r Hd). cbn [andb].
    split; intros E; destruct (IH1 E) as [-> ->]; split; reflexivity.
  - cbn [andb]. split; [|discriminate].
    destruct (isDash a) eqn:Ed; [|discriminate].
    destruct (dash_plain a Ed) as [-> _].
    destruct r as [|b x]; [discriminate|]. intros E.
    destruct (IH2 E) as [E1 E2]. rewrite E1.
    rewrite stripEnd_cons, E2. split; reflexivity.
Qed.

Lemma slugTail_plain (r : string) :
  slugTail r = true ->
  allChars (fun a => (isSlugChar a || isDash a)%bool) r = true.
Proof.
  assert (forall r, (slugTail r = true ->
                     allChars (fun a => (isSlugChar a || isDash a)%bool) r = true)
                    /\ (isSlug r = true ->
                        allChars (fun a => (isSlugChar a || isDash a)%bool) r = true))
    as Hboth.
  { clear r. induction r as [|a r [IH1 IH2]]; [split; reflexivity|].
    cbn [slugTail isSlug allChars]. destruct (isSlugChar a) eqn:Ea; cbn [orb andb].
    - split; assumption.
    - split; [|discriminate]. destruct (isDash a); [|discriminate].
      cbn [andb]. destruct r as [|b x]; [discriminate|]. exact IH2. }
  apply Hboth.
Qed.

Lemma plain_trim_lower (s : string) :
  allChars (fun a => (isSlugChar a || isDash a)%bool) s = true ->
  toLowerCase (trim s) = s.
Proof.
  intros E.
  assert (forall a, (isSlugChar a || isDash a)%bool = true ->
                    isWhiteSpace a = false /\ lowerChar a = a) as Hchar.
  { intros a Ha. apply orb_prop in Ha as [Ha|Ha].
    - destruct (slugChar_plain a Ha) as (_ & ? & ?). split; assumption.
    - destruct (dash_plain a Ha) as (_ & _ & ? & ?). split; assumption. }
  assert (trimEnd s = s) as Hend.
  { induction s as [|a r IH]; [reflexivity|]. cbn [allChars] in E.
    apply andb_prop in E as [Ea Er]. rewrite trimEnd_cons, (IH Er).
    destruct (Hchar a Ea) as [-> _]. destruct r; reflexivity. }
  assert (trimStart s = s) as Hstart.
  { destruct s as [|a r]; [reflexivity|]. cbn [allChars] in E.
    apply andb_prop in E as [Ea _]. cbn [trimStart].
    destruct (Hchar a Ea) as [-> _]. reflexivity. }
  unfold trim. rewrite Hstart, Hend.
  induction s as [|a r IH]; [reflexivity|]. cbn [allChars] in E.
  apply andb_prop in E as [Ea Er]. cbn [toLowerCase].
  destruct (Hchar a Ea) as [_ ->]. rewrite IH; try reflexivity; try assumption.
  - clear - Hend Er Hchar. rewrite trimEnd_cons in Hend.
    destruct (trimEnd r) as [|b x] eqn:Et.
    + destruct r as [|c y]; [reflexivity|]. destruct (isWhiteSpace a); discriminate Hend.
    + injection Hend as <-. reflexivity.
  - destruct r as [|c y]; [reflexivity|]. cbn [allChars] in Er.
    apply andb_prop in Er as [Ec _]. cbn [trimStart].
    destruct (Hchar c Ec) as [-> _]. reflexivity.
Qed.

Lemma slugifyId_isSlug (input : string) : isSlug (slugifyId input) = true.
Proof.
  unfold slugifyId. rewrite stripStart_replaceRuns.
  apply (proj2 (stripEnd_shape _)). apply replaceRuns_dashSeparated.
Qed.

(** X15: what slugifyId returns has the shape of an id: only characters of
    [a-z0-9] and dashes, every dash between two such characters. *)
Theorem slugifyId_shape (input : string) :
  isSlug (slugifyId input) = true
  /\ allChars (fun a => (isSlugChar a || isDash a)%bool) (slugifyId input) = true.
Proof.
  pose proof (slugifyId_isSlug input) as Hs.
  split; [exact Hs|].
  destruct (slugifyId input) as [|a r]; [reflexivity|].
  cbn [isSlug] in Hs. apply andb_prop in Hs as [Ea Er].
  cbn [allChars]. rewrite Ea. cbn [orb andb]. apply slugTail_plain. exact Er.
Qed.

(** X16: slugifyId leaves alone a string that has the shape of an id, and
    is idempotent. *)
Theorem slugifyId_idempotent (s input : string) :
  (isSlug s = true -> slugifyId s = s)
  /\ slugifyId (slugifyId input) = slugifyId input.
Proof.
  assert (forall s, isSlug s = true -> slugifyId s = s) as Hfix.
  { clear s. intros s Hs. unfold slugifyId.
    assert (allChars (fun a => (isSlugChar a || isDash a)%bool) s = true) as Hp.
    { destruct s as [|a r]; [reflexivity|].
      cbn [isSlug] in Hs. apply andb_prop in Hs as [Ea Er].
      cbn [allChars]. rewrite Ea. cbn [orb andb]. apply slugTail_plain. exact Er. }
    rewrite (plain_trim_lower s Hp), stripStart_replaceRuns.
    destruct (proj2 (slug_fixed_by_replaceRuns s) Hs) as [-> ->]. reflexivity. }
  split; [apply Hfix|]. apply Hfix. apply slugifyId_isSlug.
Qed.

(** * Properties of app/page.tsx *)

(** ** uniqueId and the edits of the palette *)

Lemma decimal_inj (i j : nat) : page.decimal i = page.decimal j -> i = j.
Proof.
  unfold page.decimal. intros E.
  apply (f_equal NilEmpty.uint_of_string) in E. rewrite !NilEmpty.usu in E.
  injection E as E. apply (f_equal Nat.of_uint) in E.
  rewrite !DecimalNat.Unsigned.of_to in E. exact E.
Qed.

(** The ids that the loop tries, from the state (i, id) on. *)
Local Abbreviation candidate base j := (base +:+ ("-" +:+ page.decimal j)).
Local Abbreviation tried fuel base i id :=
  (id :: map (fun j => candidate base j) (seq (S i) (Nat.pred fuel))).

Lemma uniqueIdLoop_spec (fuel : nat) (base : string) (used : gset string) :
  forall (i : nat) (id : string),
    match page.uniqueIdLoop fuel base used i id with
    | Return r => (r ∉ used) /\ In r (tried fuel base i id)
                  /\ (id ∉ used -> r = id)
    | Throw _ => False
    | OutOfFuel => fuel = 0%nat \/ forall x, In x (tried fuel base i id) -> x ∈ used
    end.
Proof.
  induction fuel as [|fuel IH]; intros i id; cbn [page.uniqueIdLoop]; [left; reflexivity|].
  destruct (bool_decide (id ∈ used)) eqn:E.
  - apply bool_decide_eq_true in E.
    specialize (IH (i + 1)%nat (candidate base (i + 1))).
    replace (i + 1)%nat with (S i) in * by lia.
    destruct fuel as [|fuel].
    { cbn [page.uniqueIdLoop]. right. intros x [<-|[]]. exact E. }
    cbn [Nat.pred] in IH. cbn [Nat.pred].
    change (seq (S i) (S fuel)) with (S i :: seq (S (S i)) fuel).
    cbn [map].
    destruct (page.uniqueIdLoop (S fuel) base used (S i) (candidate base (S i))) as [r| |].
    + destruct IH as (Hr & Hin & _). split; [exact Hr|].
      split; [right; exact Hin|intros Hn; contradiction].
    + exact IH.
    + right. intros x [<-|Hx]; [exact E|].
      destruct IH as [IH|IH]; [discriminate IH|]. apply IH. exact Hx.
  - apply bool_decide_eq_false in E. split; [exact E|]. split; [left; reflexivity|trivial].
Qed.

Lemma candidates_NoDup (base : string) (i n : nat) :
  NoDup (map (fun j => candidate base j) (seq i n)).
Proof.
  apply NoDup_fmap_2; [|apply NoDup_seq].
  intros j j' E. apply append_inj_prefix in E. apply append_inj_prefix in E.
  exact (decimal_inj _ _ E).
Qed.

Lemma base_not_candidate (base : string) (i n : nat) :
  ~ In base (map (fun j => candidate base j) (seq i n)).
Proof.
  intros Hin. apply in_map_iff in Hin as (j & E & _).
  apply (f_equal String.length) in E. rewrite append_length in E.
  cbn [String.length] in E. rewrite append_length in E. cbn [String.length] in E. lia.
Qed.

Lemma uniqueId_returns (base : string) (used : gset string) :
  exists r : string,
    page.uniqueId (S (size used)) base used = Return r
    /\ (r ∉ used)
    /\ In r (base :: map (fun j => candidate base j) (seq 2 (size used)))
    /\ (base ∉ used -> r = base).
Proof.
  unfold page.uniqueId.
  pose proof (uniqueIdLoop_spec (S (size used)) base used 1 base) as Hspec.
  destruct (page.uniqueIdLoop (S (size used)) base used 1 base) as [r| |].
  - destruct Hspec as (Hr & Hin & Hbase). exists r.
    split; [reflexivity|]. split; [exact Hr|]. split; [exact Hin|exact Hbase].
  - destruct Hspec.
  - exfalso. destruct Hspec as [Hz|Hall]; [discriminate Hz|].
    cbn [Nat.pred] in Hall.
    set (l := base :: map (fun j => candidate base j) (seq 2 (size used))) in *.
    assert (NoDup l) as Hnd.
    { apply NoDup_cons. split; [|apply candidates_NoDup].
      rewrite list_elem_of_In. apply base_not_candidate. }
    assert (length l <= size used)%nat as Hlen.
    { rewrite <- (size_list_to_set (C := gset string) l Hnd).
      apply subseteq_size. intros x Hx. apply elem_of_list_to_set in Hx.
      apply Hall. apply list_elem_of_In. exact Hx. }
    subst l. cbn [length] in Hlen. rewrite length_map, length_seq in Hlen. lia.
Qed.

(** X17: uniqueId ends within as many tries as there are used ids plus one.
    The id it returns is not in use; it is the base itself when the base is
    free, and else the base followed by a dash and a number. *)
Theorem uniqueId_is_fresh (base : string) (used : gset string) :
  exists r : string,
    page.uniqueId (S (size used)) base used = Return r
    /\ (r ∉ used)
    /\ (base ∉ used -> r = base)
    /\ (r = base \/ exists j : nat, (2 <= j <= S (size used))%nat
                                    /\ r = base +:+ "-" +:+ page.decimal j).
Proof.
  destruct (uniqueId_returns base used) as (r & E & Hr & Hin & Hbase).
  exists r. split; [exact E|]. split; [exact Hr|]. split; [exact Hbase|].
  destruct Hin as [<-|Hin]; [left; reflexivity|]. right.
  apply in_map_iff in Hin as (j & <- & Hj). apply in_seq in Hj.
  exists j. split; [lia|reflexivity].
Qed.

(** X18: addColor appends one row whose id no earlier row has, so a
    palette with distinct ids keeps distinct ids; removeColor takes away
    every row of the given id and keeps the others in their order. *)
Theorem palette_edits_keep_ids_distinct (prev : list page.Row) (i : string) :
  (exists (r : string),
     page.addColor (S (size (page.idSet prev))) prev
     = Return (prev ++ [page.mkRow r "New Color" "#888888" None None])%list
     /\ ~ In r (map page.id prev)
     /\ (NoDup (map page.id prev) ->
         NoDup (map page.id (prev ++ [page.mkRow r "New Color" "#888888" None None]))))
  /\ ~ In i (map page.id (page.removeColor i prev))
  /\ (forall r : page.Row, In r prev -> page.id r <> i -> In r (page.removeColor i prev))
  /\ (NoDup (map page.id prev) -> NoDup (map page.id (page.removeColor i prev))).
Proof.
  split; [|split; [|split]].
  - destruct (uniqueId_returns "new-color" (page.idSet prev)) as (r & E & Hr & _).
    exists r. unfold page.addColor. rewrite E. cbn [obind].
    assert (~ In r (map page.id prev)) as Hnot.
    { intros Hin. apply Hr. unfold page.idSet. apply elem_of_list_to_set.
      apply list_elem_of_In. exact Hin. }
    split; [reflexivity|]. split; [exact Hnot|].
    intros Hnd. rewrite map_app. cbn [map page.id].
    apply NoDup_app. split; [exact Hnd|]. split.
    + intros x Hx [->|[]]%list_elem_of_In. apply Hnot. apply list_elem_of_In. exact Hx.
    + apply NoDup_singleton.
  - intros Hin. apply in_map_iff in Hin as (r & <- & Hr).
    unfold page.removeColor in Hr. apply list_elem_of_In in Hr.
    apply list_elem_of_filter in Hr as [Hne _]. apply Hne. reflexivity.
  - intros r Hin Hne. unfold page.removeColor. apply list_elem_of_In.
    apply list_elem_of_filter. split; [exact Hne|apply list_elem_of_In; exact Hin].
  - unfold page.removeColor. induction prev as [|r rest IH]; [trivial|].
    cbn [map]. intros Hnd. apply NoDup_cons in Hnd as [Hnot Hnd].
    rewrite filter_cons. destruct (decide (page.id r <> i)); [|apply IH; exact Hnd].
    cbn [map]. apply NoDup_cons. split; [|apply IH; exact Hnd].
    intros Hin. apply Hnot. apply list_elem_of_In in Hin.
    apply in_map_iff in Hin as (r' & E & Hr'). apply list_elem_of_In.
    apply in_map_iff. exists r'. split; [exact E|].
    apply list_elem_of_In in Hr'. apply list_elem_of_filter in Hr' as [_ Hr'].
    apply list_elem_of_In. exact Hr'.
Qed.

(** ** The computed rows and the token bundle of the page *)

Section PageProperties.
Context {num : Type} {J : JsNumber num} {K : Culori num} {E : Engine}
        {L : Locale}.

Lemma orElse_truthy (msg fallback : string) :
  fallback <> EmptyString -> page.truthy (Some (page.orElse msg fallback)) = true.
Proof.
  intros Hf. destruct msg; cbn; [|reflexivity].
  destruct fallback; [contradiction|reflexivity].
Qed.

(** What isValidHex accepts, normalizeHex returns. *)
Lemma valid_hex_returns (fuel : nat) (x : string) :
  isValidHex x = true -> exists y : string, normalizeHex (S fuel) x = Return y.
Proof.
  unfold isValidHex. intros Ev. cbn [normalizeHex].
  destruct (testHashDigits isLowerHexDigit 3 (toLowerCase (trim x))) eqn:E3; [eauto|].
  destruct (testHashDigits isLowerHexDigit 6 (toLowerCase (trim x))) eqn:E6; [eauto|].
  exfalso. apply orb_prop in Ev as [Ev|Ev];
    apply testHashDigits_toLowerCase in Ev; congruence.
Qed.

(** One row of [computed]: the row it was, with an error. *)
Lemma computeRow_outcome (fuel : nat) (stopSet : StopSet) (r : page.Row) :
  exists e : string,
    page.computeRow (S fuel) stopSet r
    = Return (page.mkRow (page.id r) (page.label r) (page.hex r) (page.ramp r) (Some e))
    /\ page.truthy (Some e) = true.
Proof.
  unfold page.computeRow. destruct (isValidHex (page.hex r)) eqn:Ev; cbn [negb].
  - destruct (valid_hex_returns fuel _ Ev) as (base & Hbase).
    destruct (generateRamp9_throws (S fuel) base stopSet) as (msg & Em & _).
    unfold page.tryRamp. rewrite Hbase. cbn [obind]. rewrite Em. cbn [obind].
    eexists. split; [reflexivity|apply orElse_truthy; discriminate].
  - exists "Invalid hex". split; reflexivity.
Qed.

(** X19: every row of [computed] carries an error and is otherwise the row
    it was, with its id, label, hex and ramp.  The error is "Invalid hex"
    when isValidHex rejects the hex; when it accepts it, the hex is
    normalized, generateRamp9 is called on the result and throws, and the
    error is the message it throws with. *)
Theorem computed_row (fuel : nat) (stopSet : StopSet) (r : page.Row) :
  exists e : string,
    page.computeRow (S fuel) stopSet r
    = Return (page.mkRow (page.id r) (page.label r) (page.hex r) (page.ramp r) (Some e))
    /\ page.truthy (Some e) = true
    /\ (isValidHex (page.hex r) = false -> e = "Invalid hex")
    /\ (isValidHex (page.hex r) = true ->
        exists base msg : string,
          normalizeHex (S fuel) (page.hex r) = Return base
          /\ generateRamp9 (S fuel) base stopSet = Throw msg
          /\ In msg ["Invalid hex color"; cannotRead; cannotDestructure]
          /\ e = page.orElse msg "Failed to generate ramp").
Proof.
  unfold page.computeRow. destruct (isValidHex (page.hex r)) eqn:Ev; cbn [negb].
  - destruct (valid_hex_returns fuel _ Ev) as (base & Hbase).
    destruct (generateRamp9_throws (S fuel) base stopSet) as (msg & Em & Hmsg).
    unfold page.tryRamp. rewrite Hbase. cbn [obind]. rewrite Em. cbn [obind].
    exists (page.orElse msg "Failed to generate ramp").
    split; [reflexivity|]. split; [apply orElse_truthy; discriminate|].
    split; [discriminate|]. intros _. exists base, msg.
    split; [reflexivity|]. split; [exact Em|]. split; [exact Hmsg|reflexivity].
  - exists "Invalid hex". split; [reflexivity|]. split; [reflexivity|].
    split; [reflexivity|discriminate].
Qed.

Lemma computed_outcome (fuel : nat) (stopSet : StopSet) (rows : list page.Row) :
  exists cs : list page.Row,
    page.computed (S fuel) stopSet rows = Return cs
    /\ length cs = length rows
    /\ Forall (fun row => page.truthy (page.error row) = true) cs.
Proof.
  induction rows as [|r rest (cs & Ecs & Hlen & Herr)]; cbn [page.computed].
  - exists []. split; [reflexivity|]. split; [reflexivity|constructor].
  - destruct (computeRow_outcome fuel stopSet r) as (e & Er & Ht).
    rewrite Er, Ecs. cbn [obind]. eexists. split; [reflexivity|].
    split; [cbn [length]; rewrite Hlen; reflexivity|].
    constructor; [exact Ht|exact Herr].
Qed.

(** X20: the page never has a token bundle to export.  Whatever the rows,
    the mapping and the stop set, [computed] returns as many rows as there
    were, each with an error, and [tokenBundle] is null. *)
Theorem token_bundle_is_never_built (fuel : nat) (stopSet : StopSet)
    (rows : list page.Row) (mapping : PerTheme ThemeMapping) :
  page.tokenBundle (S fuel) stopSet rows mapping = Return None
  /\ exists cs : list page.Row,
       page.computed (S fuel) stopSet rows = Return cs
       /\ length cs = length rows
       /\ Forall (fun row => page.truthy (page.error row) = true) cs.
Proof.
  split; [|apply computed_outcome].
  unfold page.tokenBundle.
  destruct (computed_outcome fuel stopSet rows) as (cs & -> & Hlen & Herr).
  cbn [obind]. destruct cs as [|row cs].
  - destruct rows; [|discriminate Hlen]. reflexivity.
  - apply Forall_cons in Herr as [Hrow _]. cbn [forallb].
    rewrite Hrow. cbn [negb]. rewrite andb_false_r. reflexivity.
Qed.

End PageProperties.

(** ** The further properties on the sample implementations *)

(** X1 at a padded shorthand in mixed case. *)
Lemma valid_hex_normalizes_witness :
  isValidHex " #AbC " = true
  /\ exists y : string,
       testHashDigits isLowerHexDigit 6 y = true
       /\ forall (num : Type) (K : Culori num) (fuel : nat),
            normalizeHex (S fuel) " #AbC " = Return y.
Proof.
  assert (isValidHex " #AbC " = true) as Eq by reflexivity.
  split; [exact Eq|]. exact (valid_hex_normalizes " #AbC " Eq).
Defined.

(** X2 at "AbC". *)
Lemma normalized_is_valid_witness :
  normalizeHex (K := hexCulori) 2 "AbC" = Return "#aabbcc"
  /\ isValidHex "#aabbcc" = true.
Proof.
  assert (normalizeHex (K := hexCulori) 2 "AbC" = Return "#aabbcc") as Eq
    by (vm_compute; reflexivity).
  split; [exact Eq|]. exact (normalized_is_valid 2 "AbC" "#aabbcc" Eq).
Defined.

(** X13 at a palette that names sky twice. *)
Lemma repeated_id_adds_nothing_witness :
  In (mkPaletteColor "sky" "Sky" "#3366ff") palette2
  /\ buildTokens (L := collation)
       (palette2 ++ [mkPaletteColor "sky" "Sky again" "#000000"]) ramps2 mapping2
     = buildTokens (L := collation) (palette2 ++ []) ramps2 mapping2.
Proof.
  assert (In (mkPaletteColor "sky" "Sky" "#3366ff") palette2) as Hin
    by (left; reflexivity).
  split; [exact Hin|].
  exact (proj2 (repeated_id_adds_nothing ramps2 (L := collation) palette2 []
                  (mkPaletteColor "sky" "Sky again" "#000000")
                  (mkPaletteColor "sky" "Sky" "#3366ff") mapping2 Hin eq_refl)).
Defined.

Lemma mapping2_slots_have_ramps (theme : ThemeName) (i : string) :
  In i (mappingSlots (atTheme mapping2 theme)) ->
  exists c : PaletteColor, In c palette2 /\ id c = i /\ is_Some (ramps2 !! i).
Proof.
  destruct theme; cbn [atTheme mapping2 ofLight ofDark mappingSlots In
                         surfacePrimary surfaceInverse textPrimary textInverse
                         accentPrimary accentInverse];
    intros Hi;
    repeat (destruct Hi as [<-|Hi];
            [first [exists (mkPaletteColor "sky" "Sky" "#3366ff");
                    split; [cbn; tauto|]; split; [reflexivity|];
                    exists skyRamp; vm_compute; reflexivity
                   |exists (mkPaletteColor "ink" "Ink" "#111111");
                    split; [cbn; tauto|]; split; [reflexivity|];
                    exists inkRamp; vm_compute; reflexivity]|]);
    destruct Hi.
Qed.

(** X14 at the two-colour palette: the value of --accent in the dark
    theme. *)
Lemma references_resolve_witness :
  In ("--accent", "var(--c-sky-500)")
     (atTheme (themes (json (buildTokens (L := collation) palette2 ramps2 mapping2))) dark)
  /\ ("var(--c-sky-500)" = "transparent"
      \/ exists (i : string) (s : RampStep) (ramp : Ramp),
           "var(--c-sky-500)" = var (varNamePrimitive i s)
           /\ ramps2 !! i = Some ramp
           /\ objGet (primitives (json (buildTokens (L := collation) palette2 ramps2 mapping2)))
                     (varNamePrimitive i s) = Some (Text (ramp s))).
Proof.
  assert (In ("--accent", "var(--c-sky-500)")
            (atTheme (themes (json (buildTokens (L := collation) palette2 ramps2 mapping2))) dark))
    as Hin by (vm_compute; tauto).
  split; [exact Hin|].
  exact (references_resolve ramps2 (L := collation) palette2 mapping2
           mapping2_slots_have_ramps dark "--accent" "var(--c-sky-500)" (or_introl Hin)).
Defined.

(** X21 at the palette whose second entry, fog, has no ramp. *)
Lemma plain_entry_without_ramp_witness :
  ramps2 !! "fog" = None
  /\ ~ In "fog" objectPrototypeMembers
  /\ buildTokens (L := collation) paletteOrphan ramps2 mapping2
     = buildTokens (L := collation) palette2 ramps2 mapping2.
Proof.
  assert (ramps2 !! id (mkPaletteColor "fog" "Fog" "oops") = None) as Hnone
    by (vm_compute; reflexivity).
  assert (~ In (id (mkPaletteColor "fog" "Fog" "oops")) objectPrototypeMembers) as Hplain.
  { cbn. intros H. repeat (destruct H as [H|H]; [discriminate H|]). exact H. }
  split; [exact Hnone|]. split; [exact Hplain|].
  exact (proj1 (proj2 (plain_entry_without_ramp_is_skipped ramps2 (L := collation)
                         [mkPaletteColor "sky" "Sky" "#3366ff"]
                         [mkPaletteColor "ink" "Ink" "#111111"]
                         (mkPaletteColor "fog" "Fog" "oops") mapping2 Hnone Hplain))).
Defined.
